(** * dhmk-di: a closure-based dependency-injection core (src/index.ts)

    The library keeps one process-wide slot [globalContainerContext], a heap
    of container objects, and function objects that are compared by
    reference.  This development embeds the library functions as state
    passing functions over an explicit store, and user code (the zero-argument
    functions handed to [dependency], [singletonFunction], [withContainer]) as
    programs whose operations are the library's exported functions. *)

From Stdlib Require Import ZArith String.
From stdpp Require Import base option list gmap.

Local Open Scope Z_scope.

(** ** Data model *)

(** Function objects, containers and WeakMaps are heap objects; a reference
    is the index of the object in its heap. *)
Abbreviation fnref := nat (only parsing).
Abbreviation caddr := nat (only parsing).
Abbreviation waddr := nat (only parsing).

(** JavaScript values that the modelled programs compute with. *)
#[warnings="-register-all"]
Inductive value : Type :=
  | VUndefined
  | VNum (n : Z)
  | VStr (s : string)
  | VFun (f : fnref)
  | VArr (vs : list value).

(** What a [throw] carries: an [Error] object with its message (the library
    throws only this one), or an arbitrary value thrown by user code. *)
Inductive error : Type :=
  | Error (msg : string)
  | Thrown (v : value).

(** The error that [assertContainerContext] throws, with its message. *)
Definition ScopeRequiredError : error :=
  Error "This function can run only inside `withContainer` function.".

(** Calling something that is not a function object. *)
Definition NotAFunction : error := Error "TypeError: not a function".

(** How an evaluation ends.  [OutOfFuel] stands for the exhaustion of the
    call stack; like a thrown failure it runs the [finally] blocks it
    crosses, but user code cannot catch it. *)
Inductive outcome (A : Type) : Type :=
  | Return (a : A)
  | Throws (e : error)
  | OutOfFuel.
Arguments Return {A} a.
Arguments Throws {A} e.
Arguments OutOfFuel {A}.

(** User code: a tree of calls into the library and into other functions,
    each with the continuation that receives its result. *)
Inductive prog : Type :=
  | Ret (v : value)
  | Throw (v : value)
  | TryCatch (body : prog) (handler : error -> prog) (k : value -> prog)
  | Call (f : fnref) (k : value -> prog)
  | Lambda (body : prog) (k : fnref -> prog)
  | Dependency (defaultFn : fnref) (k : fnref -> prog)
  | SingletonFunction (fn : fnref) (k : fnref -> prog)
  | CreateContainer (cont : option caddr) (k : caddr -> prog)
  | WithContainer (fn : fnref) (context : option caddr) (k : value -> prog)
  | Bind (dependency : fnref) (fn : fnref) (k : prog)
  | GetCaller (k : option fnref -> prog)
  | GetCell (cell : nat) (k : value -> prog)
  | SetCell (cell : nat) (v : value) (k : prog).

(** The three kinds of function objects: a user closure, the [self] closure
    returned by [dependency] (which carries [defaultFn] under
    [DEPENDENCY_TAG]), and the [self] closure returned by
    [singletonFunction]. *)
Inductive fobj : Type :=
  | Plain (body : prog)
  | Dep (defaultFn : fnref)
  | Sing (fn : fnref).

(** [MutableContainer]: [singletonsStateMap] is a reference to a WeakMap
    object, so that containers can share one. *)
Record MutableContainer : Type := mkContainer {
  dependenciesMap : gmap fnref fnref;
  singletonsStateMap : waddr;
  callersStack : list fnref
}.

Record state : Type := mkState {
  globalContainerContext : option caddr;
  containers : list MutableContainer;
  weakmaps : list (gmap fnref value);
  functions : list fobj;
  cells : gmap nat value
}.

Definition initial : state :=
  {| globalContainerContext := None; containers := []; weakmaps := [];
     functions := []; cells := ∅ |}.

(** ** Store access *)

Definition emptyContainer : MutableContainer :=
  {| dependenciesMap := ∅; singletonsStateMap := 0%nat; callersStack := [] |}.

(** The container object behind a reference. *)
Definition cont (st : state) (c : caddr) : MutableContainer :=
  default emptyContainer (containers st !! c).

(** The WeakMap object behind a reference. *)
Definition wmap (st : state) (w : waddr) : gmap fnref value :=
  default ∅ (weakmaps st !! w).

Definition set_global (g : option caddr) (st : state) : state :=
  {| globalContainerContext := g; containers := containers st;
     weakmaps := weakmaps st; functions := functions st; cells := cells st |}.

Definition upd_cont (c : caddr) (f : MutableContainer -> MutableContainer)
    (st : state) : state :=
  {| globalContainerContext := globalContainerContext st;
     containers := alter f c (containers st);
     weakmaps := weakmaps st; functions := functions st; cells := cells st |}.

(** [dependenciesMap.set(d, fn)] on container [c]. *)
Definition set_dep (c : caddr) (d fn : fnref) (st : state) : state :=
  upd_cont c (fun C => {| dependenciesMap := <[d := fn]> (dependenciesMap C);
                          singletonsStateMap := singletonsStateMap C;
                          callersStack := callersStack C |}) st.

(** [callersStack.push(d)] on container [c]: the array grows at its end. *)
Definition push (c : caddr) (d : fnref) (st : state) : state :=
  upd_cont c (fun C => {| dependenciesMap := dependenciesMap C;
                          singletonsStateMap := singletonsStateMap C;
                          callersStack := callersStack C ++ [d] |}) st.

(** [callersStack.pop()] on container [c]: drops the last element, and
    leaves an empty array empty. *)
Definition pop (c : caddr) (st : state) : state :=
  upd_cont c (fun C => {| dependenciesMap := dependenciesMap C;
                          singletonsStateMap := singletonsStateMap C;
                          callersStack := removelast (callersStack C) |}) st.

(** [singletonsStateMap.set(self, { state: v })] on the WeakMap [w]. *)
Definition wm_set (w : waddr) (self : fnref) (v : value) (st : state) : state :=
  {| globalContainerContext := globalContainerContext st;
     containers := containers st;
     weakmaps := alter (fun m => <[self := v]> m) w (weakmaps st);
     functions := functions st; cells := cells st |}.

(** A new function object; its reference is the next free index. *)
Definition alloc_fn (o : fobj) (st : state) : fnref * state :=
  (length (functions st),
   {| globalContainerContext := globalContainerContext st;
      containers := containers st; weakmaps := weakmaps st;
      functions := functions st ++ [o]; cells := cells st |}).

Definition set_cell (l : nat) (v : value) (st : state) : state :=
  {| globalContainerContext := globalContainerContext st;
     containers := containers st; weakmaps := weakmaps st;
     functions := functions st; cells := <[l := v]> (cells st) |}.

Definition get_cell (st : state) (l : nat) : value :=
  default VUndefined (cells st !! l).

(** ** The library (src/index.ts) *)

(** [createContainer(cont?)]: a copy of the source's [dependenciesMap], the
    source's own [singletonsStateMap] object (or a new WeakMap when there is
    no source), and an empty [callersStack]. *)
Definition createContainer (src : option caddr) (st : state) : caddr * state :=
  match src with
  | Some c0 =>
      (length (containers st),
       {| globalContainerContext := globalContainerContext st;
          containers := containers st ++
            [ {| dependenciesMap := dependenciesMap (cont st c0);
                 singletonsStateMap := singletonsStateMap (cont st c0);
                 callersStack := [] |} ];
          weakmaps := weakmaps st; functions := functions st;
          cells := cells st |})
  | None =>
      (length (containers st),
       {| globalContainerContext := globalContainerContext st;
          containers := containers st ++
            [ {| dependenciesMap := ∅;
                 singletonsStateMap := length (weakmaps st);
                 callersStack := [] |} ];
          weakmaps := weakmaps st ++ [∅]; functions := functions st;
          cells := cells st |})
  end.

(** [assertContainerContext(ctx)]: throws when [ctx] is undefined. *)
Definition assertContainerContext (ctx : option caddr) : outcome caddr :=
  match ctx with
  | None => Throws ScopeRequiredError
  | Some c => Return c
  end.

(** [_context()]: the active container, once asserted to be there. *)
Definition _context (st : state) : outcome caddr :=
  assertContainerContext (globalContainerContext st).

(** The function that [_bind] stores for its argument [fn]: when [fn] carries
    [DEPENDENCY_TAG], [dependenciesMap.get(fn) ?? fn[DEPENDENCY_TAG]], and
    [fn] itself otherwise. *)
Definition bound_function (st : state) (c : caddr) (fn : fnref) : fnref :=
  match functions st !! fn with
  | Some (Dep defaultFn) =>
      match dependenciesMap (cont st c) !! fn with
      | Some depFn => depFn
      | None => defaultFn
      end
  | _ => fn
  end.

(** [_bind(dependency, fn)]. *)
Definition _bind (dependency fn : fnref) (st : state) : outcome unit * state :=
  match _context st with
  | Return c => (Return tt, set_dep c dependency (bound_function st c fn) st)
  | Throws e => (Throws e, st)
  | OutOfFuel => (OutOfFuel, st)
  end.

(** [callersStack[callersStack.length - 2]]: a negative index names no
    element of the array. *)
Definition second_to_last (s : list fnref) : option fnref :=
  let i := Z.of_nat (length s) - 2 in
  if i <? 0 then None else s !! Z.to_nat i.

(** [getCaller()]. *)
Definition getCaller (st : state) : outcome (option fnref) :=
  match _context st with
  | Return c => Return (second_to_last (callersStack (cont st c)))
  | Throws e => Throws e
  | OutOfFuel => OutOfFuel
  end.

Section Interp.
(** How a function object is called; the knot is tied by [call] below. *)
Variable callf : fnref -> state -> outcome value * state.

(** The closure [self] of [dependency(defaultFn)]. *)
Definition dependency_self (self defaultFn : fnref) (st : state)
    : outcome value * state :=
  match _context st with
  | Return c =>
      let '(depFn, st1) :=
        match dependenciesMap (cont st c) !! self with
        | Some depFn => (depFn, st)
        | None => (defaultFn, set_dep c self defaultFn st)
        end in
      let st2 := push c self st1 in
      let '(o, st3) := callf depFn st2 in
      (o, pop c st3)
  | Throws e => (Throws e, st)
  | OutOfFuel => (OutOfFuel, st)
  end.

(** The closure [self] of [singletonFunction(fn)]. *)
Definition singletonFunction_self (self fn : fnref) (st : state)
    : outcome value * state :=
  match _context st with
  | Return c =>
      let w := singletonsStateMap (cont st c) in
      match wmap st w !! self with
      | Some v => (Return v, st)
      | None =>
          match callf fn st with
          | (Return v, st1) => (Return v, wm_set w self v st1)
          | (o, st1) => (o, st1)
          end
      end
  | Throws e => (Throws e, st)
  | OutOfFuel => (OutOfFuel, st)
  end.

(** [withContainer(fn, context = createContainer())]. *)
Definition withContainer (fn : fnref) (context : option caddr) (st : state)
    : outcome value * state :=
  let '(ctx, st0) :=
    match context with
    | Some c => (c, st)
    | None => createContainer None st
    end in
  let prevContext := globalContainerContext st0 in
  let st1 := set_global (Some ctx) st0 in
  let '(o, st2) := callf fn st1 in
  (o, set_global prevContext st2).

(** Running user code. *)
Fixpoint exec (p : prog) (st : state) : outcome value * state :=
  match p with
  | Ret v => (Return v, st)
  | Throw v => (Throws (Thrown v), st)
  | TryCatch body handler k =>
      match exec body st with
      | (Return v, st1) => exec (k v) st1
      | (Throws e, st1) =>
          match exec (handler e) st1 with
          | (Return v, st2) => exec (k v) st2
          | r => r
          end
      | r => r
      end
  | Call f k =>
      match callf f st with
      | (Return v, st1) => exec (k v) st1
      | r => r
      end
  | Lambda body k =>
      let '(f, st1) := alloc_fn (Plain body) st in exec (k f) st1
  | Dependency defaultFn k =>
      let '(f, st1) := alloc_fn (Dep defaultFn) st in exec (k f) st1
  | SingletonFunction fn k =>
      let '(f, st1) := alloc_fn (Sing fn) st in exec (k f) st1
  | CreateContainer src k =>
      let '(c, st1) := createContainer src st in exec (k c) st1
  | WithContainer fn context k =>
      match withContainer fn context st with
      | (Return v, st1) => exec (k v) st1
      | r => r
      end
  | Bind d fn k =>
      match _bind d fn st with
      | (Return _, st1) => exec k st1
      | (Throws e, st1) => (Throws e, st1)
      | (OutOfFuel, st1) => (OutOfFuel, st1)
      end
  | GetCaller k =>
      match getCaller st with
      | Return r => exec (k r) st
      | Throws e => (Throws e, st)
      | OutOfFuel => (OutOfFuel, st)
      end
  | GetCell l k => exec (k (get_cell st l)) st
  | SetCell l v k => exec k (set_cell l v st)
  end.

(** Calling the function object behind [f]. *)
Definition call_obj (f : fnref) (st : state) : outcome value * state :=
  match functions st !! f with
  | Some (Plain body) => exec body st
  | Some (Dep defaultFn) => dependency_self f defaultFn st
  | Some (Sing fn) => singletonFunction_self f fn st
  | None => (Throws NotAFunction, st)
  end.
End Interp.

(** [call n f st]: the call [f()] in state [st], with call depth at most [n]. *)
Fixpoint call (fuel : nat) (f : fnref) (st : state) : outcome value * state :=
  match fuel with
  | O => (OutOfFuel, st)
  | S n => call_obj (call n) f st
  end.

(** A top-level program, run with call depth at most [fuel]. *)
Definition run (fuel : nat) (p : prog) (st : state) : outcome value * state :=
  exec (call fuel) p st.

(** [singleton = fn => dependency(singletonFunction(fn))]. *)
Definition singleton (fn : fnref) (k : fnref -> prog) : prog :=
  SingletonFunction fn (fun g => Dependency g k).

(** [transient = dependency]. *)
Definition transient := Dependency.

(** ** Notions used in the statements *)

(** Every container has the caller stack it had. *)
Definition same_stacks (st st' : state) : Prop :=
  forall c, callersStack (cont st' c) = callersStack (cont st c).

(** The store only grows: function objects stay what they are, WeakMaps and
    containers stay allocated, a container keeps its [singletonsStateMap]
    reference, and no key leaves a [dependenciesMap]. *)
Definition extends (st st' : state) : Prop :=
  (forall f o, functions st !! f = Some o -> functions st' !! f = Some o) /\
  (forall w, is_Some (weakmaps st !! w) -> is_Some (weakmaps st' !! w)) /\
  (forall c, is_Some (containers st !! c) ->
     is_Some (containers st' !! c) /\
     singletonsStateMap (cont st' c) = singletonsStateMap (cont st c) /\
     forall d, is_Some (dependenciesMap (cont st c) !! d) ->
               is_Some (dependenciesMap (cont st' c) !! d)).

(** No entry of a WeakMap is lost or changed. *)
Definition cache_kept (st st' : state) : Prop :=
  forall w g v, wmap st w !! g = Some v -> wmap st' w !! g = Some v.

(** [is_dependency st f]: the function object [f] carries [DEPENDENCY_TAG]. *)
Definition is_dependency (st : state) (f : fnref) : Prop :=
  exists defaultFn, functions st !! f = Some (Dep defaultFn).

(** The function that governs [D] in container [c]: its entry in
    [dependenciesMap], and its default when it has none. *)
Definition governing (st : state) (c : caddr) (D defaultFn : fnref) : fnref :=
  default defaultFn (dependenciesMap (cont st c) !! D).

(** The lazy seeding of [dependency]: [dependenciesMap.set(self, defaultFn)]
    when [self] has no entry. *)
Definition seed (c : caddr) (D defaultFn : fnref) (st : state) : state :=
  match dependenciesMap (cont st c) !! D with
  | Some _ => st
  | None => set_dep c D defaultFn st
  end.

(** What the bracket push ... pop around an already seeded Dependency leaves
    behind. *)
Definition resolved (c : caddr) (D defaultFn : fnref) (st : state) : state :=
  pop c (push c D (seed c D defaultFn st)).

(** ** Scenarios *)

(** [rand = (() => { let i = 0; return () => i++; })()] of the test suite:
    the counter [i] lives in a cell. *)
Definition counter (cell : nat) : prog :=
  GetCell cell (fun v =>
    match v with
    | VNum i => SetCell cell (VNum (i + 1)) (Ret (VNum i))
    | _ => Throw v
    end).

(** [() => [f(), f()]]. *)
Definition twice (f : fnref) : prog :=
  Call f (fun a => Call f (fun b => Ret (VArr [a; b]))).

(** [D = transient(rand); withContainer(() => [D(), D()])]. *)
Definition transient_twice : prog :=
  Lambda (counter 0) (fun rand => transient rand (fun D =>
  Lambda (twice D) (fun body => WithContainer body None Ret))).

(** [S = singleton(rand); withContainer(() => [S(), S()])]. *)
Definition singleton_twice : prog :=
  Lambda (counter 0) (fun rand => singleton rand (fun S =>
  Lambda (twice S) (fun body => WithContainer body None Ret))).

(** [S = singleton(rand); [withContainer(() => S()), withContainer(() => S())]]. *)
Definition singleton_two_runs : prog :=
  Lambda (counter 0) (fun rand => singleton rand (fun S =>
  Lambda (Call S Ret) (fun body =>
  WithContainer body None (fun a =>
  WithContainer body None (fun b => Ret (VArr [a; b])))))).

(** The store in which the counter starts at [i]. *)
Definition counting_from (i : Z) : state := set_cell 0 (VNum i) initial.

(** A store with the Dependencies of the test suite and one container:
    [rand] (0), [transient(rand)] (1), [singleton(rand)] (3, over the
    singleton function 2) and a second [singleton(rand)] (5, over 4). *)
Definition demo : state :=
  snd (createContainer None
         {| globalContainerContext := None; containers := []; weakmaps := [];
            functions := [Plain (counter 0); Dep 0; Sing 0; Dep 2; Sing 0; Dep 4];
            cells := {[ 0%nat := VNum 0 ]} |}).

(** [demo] with, besides, [() => 0] (6) and [singleton(() => 0)] (8, over
    the singleton function 7). *)
Definition demo_zero : state :=
  snd (createContainer None
         {| globalContainerContext := None; containers := []; weakmaps := [];
            functions := [Plain (counter 0); Dep 0; Sing 0; Dep 2; Sing 0; Dep 4;
                          Plain (Ret (VNum 0)); Sing 6; Dep 7];
            cells := {[ 0%nat := VNum 0 ]} |}).

(** [B = dependency(f0); X = dependency(B); D = dependency(f0)], then in one
    scoped execution [bind(B, X); bind(D, B); bind(B, h7); a = D();
    bind(B, h8); b = D()], returning [[a, b]]. *)
Definition alias_chain : prog :=
  Lambda (Ret (VNum 0)) (fun f0 =>
  Dependency f0 (fun B =>
  Dependency B (fun X =>
  Dependency f0 (fun D =>
  Lambda (Ret (VNum 7)) (fun h7 =>
  Lambda (Ret (VNum 8)) (fun h8 =>
  Lambda (Bind B X (Bind D B (Bind B h7 (Call D (fun a =>
          Bind B h8 (Call D (fun b => Ret (VArr [a; b]))))))))
    (fun body => WithContainer body None Ret))))))).

(** ** Reading the store after an update *)

Lemma cont_upd_cont c f st c' :
  cont (upd_cont c f st) c' =
  if decide (c = c') then default emptyContainer (f <$> containers st !! c)
  else cont st c'.
Proof.
  unfold cont, upd_cont; simpl. case_decide as E.
  - subst. by rewrite list_lookup_alter_eq.
  - by rewrite list_lookup_alter_ne.
Qed.

Lemma cont_upd_cont_ne c f st c' :
  c ≠ c' -> cont (upd_cont c f st) c' = cont st c'.
Proof. intros. rewrite cont_upd_cont. by case_decide. Qed.

Lemma cont_upd_cont_eq c f st :
  is_Some (containers st !! c) -> cont (upd_cont c f st) c = f (cont st c).
Proof.
  intros [C HC]. rewrite cont_upd_cont. case_decide; [|done].
  unfold cont. by rewrite HC.
Qed.

Lemma wmap_wm_set w self v st w' :
  wmap (wm_set w self v st) w' =
  if decide (w = w') then default ∅ ((fun m => <[self := v]> m) <$> weakmaps st !! w)
  else wmap st w'.
Proof.
  unfold wmap, wm_set; simpl. case_decide as E.
  - subst. by rewrite list_lookup_alter_eq.
  - by rewrite list_lookup_alter_ne.
Qed.

Lemma wmap_wm_set_eq w self v st :
  is_Some (weakmaps st !! w) -> wmap (wm_set w self v st) w !! self = Some v.
Proof.
  intros [m Hm]. rewrite wmap_wm_set. case_decide; [|done].
  rewrite Hm. simpl. apply lookup_insert_eq.
Qed.

Lemma removelast_snoc {A} (l : list A) (x : A) : removelast (l ++ [x]) = l.
Proof. apply removelast_last. Qed.

(** ** Relations between the state before and after a call

    A relation that every elementary update of the store respects, that is
    kept by the two bracketed updates of the library (push ... pop around a
    resolution, set ... restore around a scoped execution) and by the write
    of a singleton function into a WeakMap that had no entry for it when the
    function was called, holds between the states before and after any
    call. *)

Section Preservation.
Variable R : state -> state -> Prop.
Hypothesis R_refl : forall st, R st st.
Hypothesis R_trans : forall a b c, R a b -> R b c -> R a c.
Hypothesis R_set_dep : forall c d f st, R st (set_dep c d f st).
Hypothesis R_wm_set :
  forall w self v st st1,
    wmap st w !! self = None -> R st st1 -> R st (wm_set w self v st1).
Hypothesis R_alloc_fn : forall o st, R st (snd (alloc_fn o st)).
Hypothesis R_createContainer :
  forall src st, R st (snd (createContainer src st)).
Hypothesis R_set_cell : forall l v st, R st (set_cell l v st).
Hypothesis R_stack :
  forall c d st st', R (push c d st) st' -> R st (pop c st').
Hypothesis R_global :
  forall g st st',
    R (set_global g st) st' -> R st (set_global (globalContainerContext st) st').

Section WithCallee.
Variable callf : fnref -> state -> outcome value * state.
Hypothesis callf_R : forall f st, R st (snd (callf f st)).

Lemma dependency_self_R self defaultFn st :
  R st (snd (dependency_self callf self defaultFn st)).
Proof.
  unfold dependency_self. destruct (_context st) as [c|e|]; simpl; auto.
  destruct (dependenciesMap (cont st c) !! self) as [depFn|].
  - specialize (callf_R depFn (push c self st)).
    destruct (callf depFn (push c self st)) as [o st3]; simpl in *.
    by apply R_stack with self.
  - specialize (callf_R defaultFn (push c self (set_dep c self defaultFn st))).
    destruct (callf defaultFn _) as [o st3]; simpl in *.
    eapply R_trans; [apply (R_set_dep c self defaultFn)|].
    by apply R_stack with self.
Qed.

Lemma singletonFunction_self_R self fn st :
  R st (snd (singletonFunction_self callf self fn st)).
Proof.
  unfold singletonFunction_self.
  destruct (_context st) as [c|e|]; simpl; auto.
  destruct (wmap st _ !! self) as [v|] eqn:E; simpl; auto.
  specialize (callf_R fn st).
  destruct (callf fn st) as [[v|e|] st1]; simpl in *; auto.
Qed.

Lemma withContainer_R fn context st :
  R st (snd (withContainer callf fn context st)).
Proof.
  unfold withContainer.
  assert (forall ctx st0,
            R st0 (snd (let '(o, st2) := callf fn (set_global (Some ctx) st0) in
             (o, set_global (globalContainerContext st0) st2)))) as H.
  { intros ctx st0. specialize (callf_R fn (set_global (Some ctx) st0)).
    destruct (callf fn _) as [o st2]; simpl in *. by eapply R_global. }
  destruct context as [c|].
  - apply H.
  - pose proof (R_createContainer None st) as Hc.
    destruct (createContainer None st) as [ctx st0]; simpl in Hc.
    eapply R_trans; [exact Hc | apply H].
Qed.

Lemma exec_R p : forall st, R st (snd (exec callf p st)).
Proof.
  induction p as [v|v|body IHb handler IHh k IHk|f k IHk|body _ k IHk
                 |d k IHk|fn k IHk|src k IHk|fn ctx k IHk|d fn k IHk
                 |k IHk|l k IHk|l v k IHk]; intros st; simpl; auto.
  - specialize (IHb st). destruct (exec callf body st) as [[v|e|] st1];
      simpl in *; auto.
    + eapply R_trans; [exact IHb | apply IHk].
    + specialize (IHh e st1).
      destruct (exec callf (handler e) st1) as [[v|e'|] st2]; simpl in *.
      * eapply R_trans; [exact IHb|]. eapply R_trans; [exact IHh | apply IHk].
      * by eapply R_trans.
      * by eapply R_trans.
  - pose proof (callf_R f st) as H.
    destruct (callf f st) as [[v|e|] st1]; simpl in *; auto.
    eapply R_trans; [exact H | apply IHk].
  - eapply R_trans; [apply (R_alloc_fn (Plain body) st) | apply IHk].
  - eapply R_trans; [apply (R_alloc_fn (Dep d) st) | apply IHk].
  - eapply R_trans; [apply (R_alloc_fn (Sing fn) st) | apply IHk].
  - pose proof (R_createContainer src st) as H.
    destruct (createContainer src st) as [c st1]; simpl in *.
    eapply R_trans; [exact H | apply IHk].
  - pose proof (withContainer_R fn ctx st) as H.
    destruct (withContainer callf fn ctx st) as [[v|e|] st1]; simpl in *; auto.
    eapply R_trans; [exact H | apply IHk].
  - unfold _bind. destruct (_context st) as [c|e|]; simpl; auto.
    eapply R_trans; [apply R_set_dep | apply IHk].
  - destruct (getCaller st) as [r|e|]; simpl; auto.
  - eapply R_trans; [apply (R_set_cell l v st) | apply IHk].
Qed.

Lemma call_obj_R f st : R st (snd (call_obj callf f st)).
Proof.
  unfold call_obj. destruct (functions st !! f) as [[body|d|fn]|]; simpl; auto.
  - apply exec_R.
  - apply dependency_self_R.
  - apply singletonFunction_self_R.
Qed.
End WithCallee.

Lemma call_R fuel : forall f st, R st (snd (call fuel f st)).
Proof.
  induction fuel as [|n IH]; intros f st; simpl; auto.
  by apply call_obj_R.
Qed.

Lemma run_R fuel p st : R st (snd (run fuel p st)).
Proof. apply exec_R, call_R. Qed.
End Preservation.

(** ** Two instances: the caller stacks, and the growth of the store *)

Lemma cont_createContainer_old src st c :
  is_Some (containers st !! c) ->
  cont (snd (createContainer src st)) c = cont st c.
Proof.
  intros [C HC]. unfold cont.
  destruct src; simpl; by rewrite (lookup_app_l_Some _ _ _ _ HC), HC.
Qed.

Lemma cont_createContainer_dangling src st c :
  containers st !! c = None ->
  callersStack (cont (snd (createContainer src st)) c) = [].
Proof.
  intros HC. unfold cont.
  destruct src; simpl;
    (destruct ((containers st ++ _) !! c) as [C|] eqn:E; [|done]);
    apply lookup_app_Some in E as [E|[_ E]]; [congruence| |congruence|];
    apply list_lookup_singleton_Some in E as [_ <-]; done.
Qed.

Lemma same_stacks_upd_cont c f st :
  (forall C, callersStack (f C) = callersStack C) ->
  same_stacks st (upd_cont c f st).
Proof.
  intros Hf c'. rewrite cont_upd_cont. case_decide; [subst|done].
  unfold cont. destruct (containers st !! c'); simpl; auto.
Qed.

Lemma same_stacks_refl st : same_stacks st st.
Proof. by intros c. Qed.

Lemma same_stacks_trans a b c :
  same_stacks a b -> same_stacks b c -> same_stacks a c.
Proof. intros Hab Hbc x. by rewrite Hbc, Hab. Qed.

Lemma same_stacks_set_dep c d f st : same_stacks st (set_dep c d f st).
Proof. by apply same_stacks_upd_cont. Qed.

Lemma same_stacks_createContainer src st :
  same_stacks st (snd (createContainer src st)).
Proof.
  intros c. destruct (containers st !! c) as [C|] eqn:E.
  - by rewrite cont_createContainer_old.
  - rewrite cont_createContainer_dangling by done.
    unfold cont. by rewrite E.
Qed.

(** The bracket of a resolution: whatever ran between the push and the pop
    kept the stacks, so the pop takes off what the push put on. *)
Lemma same_stacks_bracket c d st st' :
  same_stacks (push c d st) st' -> same_stacks st (pop c st').
Proof.
  intros H c'. specialize (H c').
  unfold pop, push in *. rewrite cont_upd_cont in *.
  case_decide; [subst|done].
  unfold cont in *.
  destruct (containers st' !! c') as [C'|], (containers st !! c') as [C|];
    simpl in *; try done.
  - by rewrite H, removelast_snoc.
  - by rewrite H.
  - by destruct (callersStack C).
Qed.

Lemma same_stacks_call fuel f st : same_stacks st (snd (call fuel f st)).
Proof.
  apply call_R; clear.
  - apply same_stacks_refl.
  - apply same_stacks_trans.
  - apply same_stacks_set_dep.
  - intros w self v st st1 _ H c. apply (H c).
  - by intros o st c.
  - apply same_stacks_createContainer.
  - by intros l v st c.
  - apply same_stacks_bracket.
  - intros g st st' H c. apply (H c).
Qed.

Lemma extends_refl st : extends st st.
Proof. split; [|split]; auto. Qed.

Lemma extends_trans a b c : extends a b -> extends b c -> extends a c.
Proof.
  intros (F1 & W1 & C1) (F2 & W2 & C2). split; [|split]; auto.
  intros x Hx. destruct (C1 x Hx) as (H1 & E1 & D1).
  destruct (C2 x H1) as (H2 & E2 & D2).
  split; [done|]. split; [congruence|auto].
Qed.

Lemma extends_upd_cont c f st :
  (forall C, singletonsStateMap (f C) = singletonsStateMap C) ->
  (forall C d, is_Some (dependenciesMap C !! d) ->
               is_Some (dependenciesMap (f C) !! d)) ->
  extends st (upd_cont c f st).
Proof.
  intros Hsm Hdm. split; [|split]; auto.
  intros x [C HC]. split; [|split].
  - simpl. destruct (decide (c = x)) as [->|E].
    + rewrite list_lookup_alter_eq, HC. simpl; eauto.
    + rewrite list_lookup_alter_ne, HC; eauto.
  - rewrite cont_upd_cont. case_decide; [subst|done].
    unfold cont. rewrite HC. simpl. apply Hsm.
  - rewrite cont_upd_cont. intros d.
    case_decide; [subst|done]. unfold cont. rewrite HC. simpl. apply Hdm.
Qed.

Lemma extends_set_dep c d f st : extends st (set_dep c d f st).
Proof.
  apply extends_upd_cont; [done|]. intros C d' H; simpl.
  destruct (decide (d = d')) as [->|E].
  - rewrite lookup_insert_eq. eauto.
  - by rewrite lookup_insert_ne.
Qed.

Lemma extends_push c d st : extends st (push c d st).
Proof. by apply extends_upd_cont. Qed.

Lemma extends_pop c st : extends st (pop c st).
Proof. by apply extends_upd_cont. Qed.

Lemma extends_set_global g st : extends st (set_global g st).
Proof. split; [|split]; auto. Qed.

Lemma extends_wm_set w f v st : extends st (wm_set w f v st).
Proof.
  split; [|split]; auto. simpl. intros w' [m Hm].
  destruct (decide (w = w')) as [->|E].
  - rewrite list_lookup_alter_eq, Hm. simpl; eauto.
  - rewrite list_lookup_alter_ne, Hm; eauto.
Qed.

Lemma extends_alloc_fn o st : extends st (snd (alloc_fn o st)).
Proof.
  split; [|split]; auto. simpl. intros f o' H. by apply lookup_app_l_Some.
Qed.

Lemma extends_createContainer src st :
  extends st (snd (createContainer src st)).
Proof.
  split; [|split].
  - by destruct src.
  - intros w [m Hm]. destruct src; simpl; eauto.
    rewrite (lookup_app_l_Some _ _ _ _ Hm). eauto.
  - intros c [C HC]. rewrite cont_createContainer_old by eauto.
    split; [|done].
    destruct src; simpl; rewrite (lookup_app_l_Some _ _ _ _ HC); eauto.
Qed.

Lemma extends_call fuel f st : extends st (snd (call fuel f st)).
Proof.
  apply call_R; clear.
  - apply extends_refl.
  - apply extends_trans.
  - apply extends_set_dep.
  - intros w self v st st1 _ H.
    eapply extends_trans; [exact H | apply extends_wm_set].
  - apply extends_alloc_fn.
  - apply extends_createContainer.
  - intros l v st. split; [|split]; auto.
  - intros c d st st' H.
    eapply extends_trans; [apply extends_push|].
    eapply extends_trans; [exact H | apply extends_pop].
  - intros g st st' H.
    eapply extends_trans; [apply (extends_set_global g)|].
    eapply extends_trans; [exact H | apply extends_set_global].
Qed.

Lemma cache_kept_same_weakmaps st st' :
  weakmaps st' = weakmaps st -> cache_kept st st'.
Proof. intros E w g v. unfold wmap. by rewrite E. Qed.

Lemma cache_kept_trans a b c : cache_kept a b -> cache_kept b c -> cache_kept a c.
Proof. intros Hab Hbc w g v H. by apply Hbc, Hab. Qed.

Lemma cache_kept_createContainer src st :
  cache_kept st (snd (createContainer src st)).
Proof.
  destruct src as [c0|]; [by apply cache_kept_same_weakmaps|].
  intros w g v. unfold wmap. simpl.
  destruct (weakmaps st !! w) as [m|] eqn:E; [|done].
  by rewrite (lookup_app_l_Some _ _ _ _ E).
Qed.

(** An entry that a WeakMap holds when a call starts is there, unchanged,
    when the call is over: a singleton function called in between writes
    only where it found no entry when it was called. *)
Lemma cache_kept_call fuel f st : cache_kept st (snd (call fuel f st)).
Proof.
  apply call_R; clear.
  - by intros st w g v.
  - apply cache_kept_trans.
  - intros c d f st. by apply cache_kept_same_weakmaps.
  - intros w self v st st1 Hnone H w' g' v' Hv.
    rewrite wmap_wm_set. case_decide as Ew; [subst w'|by apply H].
    apply H in Hv as Hv1. unfold wmap in Hv1.
    destruct (weakmaps st1 !! w) as [m|]; [|done]. simpl in *.
    rewrite lookup_insert_ne; [done|]. intros ->. congruence.
  - intros o st. by apply cache_kept_same_weakmaps.
  - apply cache_kept_createContainer.
  - intros l v st. by apply cache_kept_same_weakmaps.
  - intros c d st st' H.
    eapply cache_kept_trans; [by apply (cache_kept_same_weakmaps st (push c d st))|].
    eapply cache_kept_trans; [exact H | by apply cache_kept_same_weakmaps].
  - intros g st st' H.
    eapply cache_kept_trans; [by apply (cache_kept_same_weakmaps st (set_global g st))|].
    eapply cache_kept_trans; [exact H | by apply cache_kept_same_weakmaps].
Qed.

(** ** Scoped execution and the ambient slot *)

Lemma createContainer_global src st :
  globalContainerContext (snd (createContainer src st)) = globalContainerContext st.
Proof. by destruct src. Qed.

(** C4: after [withContainer(fn, context?)] the ambient slot
    [globalContainerContext] holds the value it held on entry, whatever the
    body did and however it ended (return, throw, exhausted stack); started
    inside another scope, or inside none, it restores that previous value;
    and the body runs with the slot set to the container. *)
Theorem C4_withContainer_restores_ambient
    (fuel : nat) (fn : fnref) (context prev : option caddr) (c : caddr) (st : state) :
  globalContainerContext (snd (withContainer (call fuel) fn context st))
    = globalContainerContext st /\
  globalContainerContext
    (snd (withContainer (call fuel) fn context (set_global prev st))) = prev /\
  withContainer (call fuel) fn (Some c) st =
    (fst (call fuel fn (set_global (Some c) st)),
     set_global (globalContainerContext st)
       (snd (call fuel fn (set_global (Some c) st)))).
Proof.
  assert (forall s, globalContainerContext (snd (withContainer (call fuel) fn context s))
                    = globalContainerContext s) as H.
  { intros s. unfold withContainer. destruct context as [c0|].
    - by destruct (call fuel fn _).
    - pose proof (createContainer_global None s) as E.
      destruct (createContainer None s) as [ctx s0]; simpl in E.
      by destruct (call fuel fn _). }
  split; [apply H|]. split; [by rewrite H|].
  unfold withContainer. by destruct (call fuel fn _).
Qed.

(** ** No active scope *)

(** C3: with no ambient container, invoking a Dependency, [_bind] and
    [getCaller] each throw the error of [assertContainerContext], and leave
    the store as it was. *)
Theorem C3_scope_required (st : state) (D defaultFn d fn : fnref) (n : nat) :
  globalContainerContext st = None ->
  functions st !! D = Some (Dep defaultFn) ->
  call (S n) D st = (Throws ScopeRequiredError, st) /\
  _bind d fn st = (Throws ScopeRequiredError, st) /\
  getCaller st = Throws ScopeRequiredError.
Proof.
  intros Hg HD. simpl.
  unfold call_obj, dependency_self, _bind, getCaller, _context,
    assertContainerContext.
  by rewrite HD, Hg.
Qed.

Lemma C3_scope_required_witness :
  let st := snd (alloc_fn (Dep 7%nat) initial) in
  call 1 0%nat st = (Throws ScopeRequiredError, st) /\
  _bind 0%nat 3%nat st = (Throws ScopeRequiredError, st) /\
  getCaller st = Throws ScopeRequiredError.
Proof.
  apply (C3_scope_required (snd (alloc_fn (Dep 7%nat) initial))
           0%nat 7%nat 0%nat 3%nat 0%nat);
    reflexivity.
Defined.

(** ** Caller introspection *)

Lemma second_to_last_spec (s : list fnref) :
  second_to_last s = rev s !! 1%nat.
Proof.
  unfold second_to_last.
  destruct (Z.ltb_spec (Z.of_nat (length s) - 2) 0) as [H|H].
  - symmetry. apply lookup_ge_None. rewrite length_rev. lia.
  - replace (Z.to_nat (Z.of_nat (length s) - 2)) with (length s - 2)%nat by lia.
    destruct (rev s) as [|b [|a r]] eqn:E.
    + apply (f_equal length) in E. rewrite length_rev in E. simpl in E. lia.
    + apply (f_equal length) in E. rewrite length_rev in E. simpl in E. lia.
    + apply (f_equal (@rev nat)) in E. rewrite rev_involutive in E. subst s. simpl.
      rewrite <- !app_assoc. simpl.
      rewrite lookup_app_r; rewrite !length_app, length_rev; simpl; [|lia].
      by replace (length r + 2 - 2 - length r)%nat with 0%nat by lia.
Qed.

(** C7: with an active container, [getCaller] returns the second-to-last
    entry of its [callersStack], the one pushed just before the Dependency
    being resolved, and nothing when the stack has fewer than two entries. *)
Theorem C7_getCaller_second_to_last (st : state) (c : caddr) :
  globalContainerContext st = Some c ->
  getCaller st = Return (rev (callersStack (cont st c)) !! 1%nat) /\
  ((length (callersStack (cont st c)) < 2)%nat -> getCaller st = Return None) /\
  (forall s caller current,
     callersStack (cont st c) = s ++ [caller; current] ->
     getCaller st = Return (Some caller)).
Proof.
  intros Hg. unfold getCaller, _context, assertContainerContext. rewrite Hg.
  rewrite second_to_last_spec. split; [done|]. split.
  - intros Hlen. f_equal. apply lookup_ge_None. rewrite length_rev. lia.
  - intros s a b ->. f_equal. by rewrite rev_app_distr.
Qed.

Lemma C7_getCaller_second_to_last_witness :
  let st := push 0 5%nat (push 0 4%nat (push 0 3%nat
              (set_global (Some 0%nat) (snd (createContainer None initial))))) in
  getCaller st = Return (Some 4%nat) /\
  getCaller (pop 0 (pop 0 st)) = Return None.
Proof.
  intros st. split.
  - destruct (C7_getCaller_second_to_last st 0%nat eq_refl) as (_ & _ & H).
    apply (H [3%nat] 4%nat 5%nat). reflexivity.
  - destruct (C7_getCaller_second_to_last (pop 0 (pop 0 st)) 0%nat eq_refl)
      as (_ & H & _).
    apply H. vm_compute. lia.
Defined.

(** ** The caller stack *)

(** C8: a resolution leaves every [callersStack] with exactly the entries it
    had when the resolution began, on every way out: the resolved function
    returned, it threw, a nested resolution threw the scope error, or the
    call stack ran out. *)
Theorem C8_resolution_pops_on_every_exit
    (fuel : nat) (self defaultFn : fnref) (st : state) (c : caddr) :
  callersStack (cont (snd (dependency_self (call fuel) self defaultFn st)) c)
    = callersStack (cont st c).
Proof.
  apply (dependency_self_R same_stacks same_stacks_refl same_stacks_trans
           same_stacks_set_dep same_stacks_bracket (call fuel)
           (same_stacks_call fuel)).
Qed.

(** ** Resolution, step by step *)

Lemma dependenciesMap_set_dep c d f st :
  is_Some (containers st !! c) ->
  dependenciesMap (cont (set_dep c d f st) c) = <[d := f]> (dependenciesMap (cont st c)).
Proof. intros H. unfold set_dep. by rewrite cont_upd_cont_eq. Qed.

Lemma dependenciesMap_set_dep_ne c c' d f st :
  c <> c' -> dependenciesMap (cont (set_dep c d f st) c') = dependenciesMap (cont st c').
Proof. intros H. unfold set_dep. by rewrite cont_upd_cont_ne. Qed.

Lemma dependenciesMap_push c c' d st :
  dependenciesMap (cont (push c d st) c') = dependenciesMap (cont st c').
Proof.
  unfold push. rewrite cont_upd_cont. case_decide; [subst|done].
  unfold cont. by destruct (containers st !! c').
Qed.

Lemma dependenciesMap_pop c c' st :
  dependenciesMap (cont (pop c st) c') = dependenciesMap (cont st c').
Proof.
  unfold pop. rewrite cont_upd_cont. case_decide; [subst|done].
  unfold cont. by destruct (containers st !! c').
Qed.

Lemma singletonsStateMap_upd_cont c c' f st :
  (forall C, singletonsStateMap (f C) = singletonsStateMap C) ->
  singletonsStateMap (cont (upd_cont c f st) c') = singletonsStateMap (cont st c').
Proof.
  intros Hf. rewrite cont_upd_cont. case_decide; [subst|done].
  unfold cont. destruct (containers st !! c'); simpl; auto.
Qed.

(** A resolution whose Dependency already has an entry: push, call the
    entry, pop. *)
Lemma call_dependency_bound n D defaultFn depFn c st :
  functions st !! D = Some (Dep defaultFn) ->
  globalContainerContext st = Some c ->
  dependenciesMap (cont st c) !! D = Some depFn ->
  call (S n) D st =
    (fst (call n depFn (push c D st)), pop c (snd (call n depFn (push c D st)))).
Proof.
  intros HD Hg He. simpl.
  unfold call_obj, dependency_self, _context, assertContainerContext.
  rewrite HD, Hg, He. by destruct (call n depFn _).
Qed.

(** A first resolution: seed the entry with the default, then as above. *)
Lemma call_dependency_unbound n D defaultFn c st :
  functions st !! D = Some (Dep defaultFn) ->
  globalContainerContext st = Some c ->
  dependenciesMap (cont st c) !! D = None ->
  call (S n) D st =
    (fst (call n defaultFn (push c D (set_dep c D defaultFn st))),
     pop c (snd (call n defaultFn (push c D (set_dep c D defaultFn st))))).
Proof.
  intros HD Hg He. simpl.
  unfold call_obj, dependency_self, _context, assertContainerContext.
  rewrite HD, Hg, He. by destruct (call n defaultFn _).
Qed.

(** A singleton function whose value is in the WeakMap of the active
    container returns it and touches nothing. *)
Lemma call_singleton_hit n g fn c v st :
  functions st !! g = Some (Sing fn) ->
  globalContainerContext st = Some c ->
  wmap st (singletonsStateMap (cont st c)) !! g = Some v ->
  call (S n) g st = (Return v, st).
Proof.
  intros Hf Hg Hw. simpl.
  unfold call_obj, singletonFunction_self, _context, assertContainerContext.
  by rewrite Hf, Hg, Hw.
Qed.

(** Whenever a singleton function returns, its value is in the WeakMap of
    the container that was active when it was called. *)
Lemma call_singleton_caches n g fn c v st st' :
  functions st !! g = Some (Sing fn) ->
  globalContainerContext st = Some c ->
  is_Some (weakmaps st !! singletonsStateMap (cont st c)) ->
  call (S n) g st = (Return v, st') ->
  wmap st' (singletonsStateMap (cont st c)) !! g = Some v.
Proof.
  intros Hf Hg Hw. simpl.
  unfold call_obj, singletonFunction_self, _context, assertContainerContext.
  rewrite Hf, Hg.
  destruct (wmap st _ !! g) as [v0|] eqn:E.
  - intros [= <- <-]. done.
  - pose proof (extends_call n fn st) as (_ & HW & _).
    destruct (call n fn st) as [[v1|e|] st1]; intros [= <- <-].
    apply wmap_wm_set_eq. by apply HW.
Qed.

(** ** Rebinding *)

Lemma bind_in_scope D fn c st :
  globalContainerContext st = Some c ->
  _bind D fn st = (Return tt, set_dep c D (bound_function st c fn) st).
Proof. intros Hg. unfold _bind, _context, assertContainerContext. by rewrite Hg. Qed.

Lemma bound_function_dependency st c B defaultFn :
  functions st !! B = Some (Dep defaultFn) ->
  bound_function st c B = governing st c B defaultFn.
Proof.
  intros HB. unfold bound_function, governing. rewrite HB.
  by destruct (dependenciesMap (cont st c) !! B).
Qed.

(** C5: [_bind(D, B)] with [B] a Dependency stores under [D], in the active
    container, the entry of [B] in that container's [dependenciesMap] when
    there is one and [B]'s default otherwise; the next resolution of [D]
    there calls that function. *)
Theorem C5_bind_to_dependency_aliases
    (st : state) (c : caddr) (D B defaultB : fnref) :
  globalContainerContext st = Some c ->
  is_Some (containers st !! c) ->
  functions st !! B = Some (Dep defaultB) ->
  let f := match dependenciesMap (cont st c) !! B with
           | Some depFn => depFn
           | None => defaultB
           end in
  let st' := set_dep c D f st in
  _bind D B st = (Return tt, st') /\
  dependenciesMap (cont st' c) !! D = Some f /\
  forall n defaultD,
    functions st !! D = Some (Dep defaultD) ->
    call (S n) D st' =
      (fst (call n f (push c D st')), pop c (snd (call n f (push c D st')))).
Proof.
  intros Hg Hc HB f st'.
  assert (bound_function st c B = f) as Hf.
  { unfold bound_function. by rewrite HB. }
  assert (dependenciesMap (cont st' c) !! D = Some f) as HD.
  { unfold st'. rewrite dependenciesMap_set_dep by done. apply lookup_insert_eq. }
  split; [|split]; [|done|].
  - rewrite (bind_in_scope D B c st Hg). by rewrite Hf.
  - intros n defaultD HfD. by apply (call_dependency_bound n D defaultD f c st').
Qed.

(** ** Lazy seeding *)

Lemma cont_createContainer_new c0 st :
  cont (snd (createContainer (Some c0) st)) (fst (createContainer (Some c0) st)) =
  {| dependenciesMap := dependenciesMap (cont st c0);
     singletonsStateMap := singletonsStateMap (cont st c0);
     callersStack := [] |}.
Proof. unfold cont; simpl. by rewrite list_lookup_middle. Qed.

(** C6: the first resolution of [D] in a container (no entry for [D] yet)
    puts [D]'s default into [dependenciesMap] before it calls it: the
    default runs in a store that has the entry, a [_bind] of another
    Dependency to [D] made there finds it, the entry is still present
    when the resolution is over, and a clone made then has it too. *)
Theorem C6_first_resolution_seeds_default
    (st : state) (c : caddr) (D defaultFn : fnref) (n : nat) :
  globalContainerContext st = Some c ->
  is_Some (containers st !! c) ->
  functions st !! D = Some (Dep defaultFn) ->
  dependenciesMap (cont st c) !! D = None ->
  let seeded := push c D (set_dep c D defaultFn st) in
  let after := snd (call (S n) D st) in
  call (S n) D st =
    (fst (call n defaultFn seeded), pop c (snd (call n defaultFn seeded))) /\
  dependenciesMap (cont seeded c) !! D = Some defaultFn /\
  (forall X, dependenciesMap (cont (snd (_bind X D seeded)) c) !! X
             = dependenciesMap (cont seeded c) !! D) /\
  is_Some (dependenciesMap (cont after c) !! D) /\
  is_Some (dependenciesMap
             (cont (snd (createContainer (Some c) after))
                   (fst (createContainer (Some c) after))) !! D).
Proof.
  intros Hg Hc HD Hnone seeded after.
  assert (call (S n) D st =
            (fst (call n defaultFn seeded),
             pop c (snd (call n defaultFn seeded)))) as Hcall
    by (by apply call_dependency_unbound).
  assert (dependenciesMap (cont seeded c) !! D = Some defaultFn) as Hseed.
  { unfold seeded. rewrite dependenciesMap_push, dependenciesMap_set_dep by done.
    apply lookup_insert_eq. }
  assert (is_Some (containers seeded !! c)) as Hc'.
  { by apply (extends_trans _ _ _ (extends_set_dep c D defaultFn st)
                (extends_push c D _)). }
  assert (is_Some (dependenciesMap (cont after c) !! D)) as Hafter.
  { unfold after. rewrite Hcall. simpl. rewrite dependenciesMap_pop.
    pose proof (extends_call n defaultFn seeded) as (_ & _ & HC).
    destruct (HC c Hc') as (_ & _ & Hdom). apply Hdom. rewrite Hseed. eauto. }
  split; [done|]. split; [done|]. split; [|split; [done|]].
  - intros X.
    assert (globalContainerContext seeded = Some c) as Hg' by done.
    rewrite (bind_in_scope X D c seeded Hg'). simpl.
    rewrite dependenciesMap_set_dep by done. rewrite lookup_insert_eq.
    unfold bound_function.
    assert (functions seeded !! D = Some (Dep defaultFn)) as -> by done.
    by rewrite Hseed.
  - by rewrite cont_createContainer_new.
Qed.

(** C10, as the code has it: [_bind(D, B)] with [B] a Dependency stores the
    function that governs [B] at that moment.  When that function is not
    itself a Dependency it is not [B], a later [_bind(B, h)] leaves the entry
    of [D] and the function a resolution of [D] calls as they were, and
    [_bind(B, B)] binds [B] to that same function. *)
Theorem C10_alias_resolved_at_bind_time
    (st : state) (c : caddr) (D B defaultB h : fnref) :
  globalContainerContext st = Some c ->
  is_Some (containers st !! c) ->
  functions st !! B = Some (Dep defaultB) ->
  ~ is_dependency st (governing st c B defaultB) ->
  D <> B ->
  let f := governing st c B defaultB in
  let st1 := snd (_bind D B st) in
  let st2 := snd (_bind B h st1) in
  dependenciesMap (cont st1 c) !! D = Some f /\
  f <> B /\
  dependenciesMap (cont st2 c) !! D = Some f /\
  (forall n defaultD,
     functions st !! D = Some (Dep defaultD) ->
     call (S n) D st2 =
       (fst (call n f (push c D st2)), pop c (snd (call n f (push c D st2))))) /\
  dependenciesMap (cont (snd (_bind B B st)) c) !! B = Some f.
Proof.
  intros Hg Hc HB Hplain Hne f st1 st2.
  assert (st1 = set_dep c D f st) as E1.
  { unfold st1. rewrite (bind_in_scope D B c st Hg). simpl.
    by rewrite (bound_function_dependency st c B defaultB HB). }
  assert (is_Some (containers st1 !! c)) as Hc1.
  { rewrite E1. by apply (extends_set_dep c D f st). }
  assert (globalContainerContext st1 = Some c) as Hg1 by (by rewrite E1).
  assert (st2 = set_dep c B (bound_function st1 c h) st1) as E2.
  { unfold st2. by rewrite (bind_in_scope B h c st1 Hg1). }
  assert (dependenciesMap (cont st1 c) !! D = Some f) as H1.
  { rewrite E1, dependenciesMap_set_dep by done. apply lookup_insert_eq. }
  assert (dependenciesMap (cont st2 c) !! D = Some f) as H2.
  { rewrite E2, dependenciesMap_set_dep by done. by rewrite lookup_insert_ne. }
  split; [done|]. split; [|split; [done|split]].
  - intros E. apply Hplain. exists defaultB. fold f. by rewrite E.
  - intros n defaultD HD.
    apply (call_dependency_bound n D defaultD f c st2); [|by rewrite E2|done].
    by rewrite E2, E1.
  - rewrite (bind_in_scope B B c st Hg). simpl.
    rewrite dependenciesMap_set_dep by done. rewrite lookup_insert_eq.
    by rewrite (bound_function_dependency st c B defaultB HB).
Qed.

(** ** Singletons and clones *)

Lemma call_dependency n D defaultFn c st :
  functions st !! D = Some (Dep defaultFn) ->
  globalContainerContext st = Some c ->
  call (S n) D st =
    (fst (call n (governing st c D defaultFn) (push c D (seed c D defaultFn st))),
     pop c (snd (call n (governing st c D defaultFn) (push c D (seed c D defaultFn st))))).
Proof.
  intros HD Hg. unfold governing, seed.
  destruct (dependenciesMap (cont st c) !! D) as [f|] eqn:E; simpl.
  - by apply (call_dependency_bound n D defaultFn f c st).
  - by apply (call_dependency_unbound n D defaultFn c st).
Qed.

Lemma cont_set_global g st c : cont (set_global g st) c = cont st c.
Proof. done. Qed.

Lemma governing_set_dep_self c D f st : governing (set_dep c D f st) c D f = f.
Proof.
  unfold governing, set_dep. rewrite cont_upd_cont. case_decide; [|done].
  destruct (containers st !! c); simpl; [|done]. by rewrite lookup_insert_eq.
Qed.

Lemma governing_seed c D f st : governing (seed c D f st) c D f = governing st c D f.
Proof.
  unfold seed. destruct (dependenciesMap (cont st c) !! D) as [x|] eqn:E; [done|].
  rewrite governing_set_dep_self. unfold governing. by rewrite E.
Qed.

Lemma resolved_frame c D f st :
  let st' := resolved c D f st in
  globalContainerContext st' = globalContainerContext st /\
  functions st' = functions st /\
  weakmaps st' = weakmaps st /\
  (forall x, is_Some (containers st !! x) -> is_Some (containers st' !! x)) /\
  (forall x, singletonsStateMap (cont st' x) = singletonsStateMap (cont st x)) /\
  (forall x, x <> c -> dependenciesMap (cont st' x) = dependenciesMap (cont st x)) /\
  governing st' c D f = governing st c D f.
Proof.
  unfold resolved. simpl.
  assert (globalContainerContext (seed c D f st) = globalContainerContext st
          /\ functions (seed c D f st) = functions st
          /\ weakmaps (seed c D f st) = weakmaps st) as (Eg & Ef & Ew).
  { unfold seed. by destruct (dependenciesMap (cont st c) !! D). }
  assert (extends st (seed c D f st)) as Hext.
  { unfold seed. destruct (dependenciesMap (cont st c) !! D);
      [apply extends_refl | apply extends_set_dep]. }
  split; [done|]. split; [done|]. split; [done|]. split; [|split; [|split]].
  - intros x Hx.
    apply (extends_trans _ _ _ Hext
             (extends_trans _ _ _ (extends_push c D _) (extends_pop c _))), Hx.
  - intros x. unfold pop, push.
    rewrite !singletonsStateMap_upd_cont by done.
    unfold seed. destruct (dependenciesMap (cont st c) !! D); [done|].
    unfold set_dep. by rewrite singletonsStateMap_upd_cont.
  - intros x Hx. rewrite dependenciesMap_pop, dependenciesMap_push.
    unfold seed. destruct (dependenciesMap (cont st c) !! D); [done|].
    by rewrite dependenciesMap_set_dep_ne.
  - unfold governing at 1. rewrite dependenciesMap_pop, dependenciesMap_push.
    apply governing_seed.
Qed.

Lemma seed_frame c D d st :
  globalContainerContext (seed c D d st) = globalContainerContext st /\
  functions (seed c D d st) = functions st /\
  weakmaps (seed c D d st) = weakmaps st /\
  cells (seed c D d st) = cells st /\
  (forall x, singletonsStateMap (cont (seed c D d st) x)
             = singletonsStateMap (cont st x)) /\
  (forall x, callersStack (cont (seed c D d st) x) = callersStack (cont st x)) /\
  (forall x, is_Some (containers st !! x) ->
             is_Some (containers (seed c D d st) !! x)).
Proof.
  unfold seed. destruct (dependenciesMap (cont st c) !! D); [done|].
  split; [done|]. split; [done|]. split; [done|]. split; [done|].
  split; [|split].
  - intros x. unfold set_dep. by rewrite singletonsStateMap_upd_cont.
  - intros x. apply same_stacks_set_dep.
  - intros x Hx. by apply (extends_set_dep c D d st).
Qed.

Lemma callersStack_push c d st :
  is_Some (containers st !! c) ->
  callersStack (cont (push c d st) c) = callersStack (cont st c) ++ [d].
Proof. intros H. unfold push. by rewrite cont_upd_cont_eq. Qed.

Lemma second_to_last_snoc (s : list fnref) (x : fnref) :
  second_to_last (s ++ [x]) = last s.
Proof.
  rewrite second_to_last_spec, rev_app_distr. simpl.
  induction s as [|a s _] using rev_ind; [done|].
  by rewrite last_snoc, rev_app_distr.
Qed.

(** Resolving a Dependency that is governed by a singleton function whose
    value the active container's WeakMap holds. *)
Lemma resolve_governed_hit m D d g fn c v st :
  functions st !! D = Some (Dep d) ->
  functions st !! g = Some (Sing fn) ->
  globalContainerContext st = Some c ->
  governing st c D d = g ->
  wmap st (singletonsStateMap (cont st c)) !! g = Some v ->
  call (S (S m)) D st = (Return v, resolved c D d st).
Proof.
  intros HD Hg Hc Hgov Hv.
  rewrite (call_dependency (S m) D d c st HD Hc), Hgov.
  destruct (seed_frame c D d st) as (Eg & Ef & Ew & _ & Esm & _).
  rewrite (call_singleton_hit m g fn c v (push c D (seed c D d st))); [done| | |].
  - simpl. by rewrite Ef.
  - simpl. by rewrite Eg.
  - apply (cache_kept_same_weakmaps st); [simpl; by rewrite Ew|].
    unfold push. rewrite singletonsStateMap_upd_cont by done.
    by rewrite Esm.
Qed.

(** When a Dependency governed by a singleton function has been resolved,
    the value is in the active container's WeakMap. *)
Lemma resolve_governed_caches n D d g fn c v st st' :
  functions st !! D = Some (Dep d) ->
  functions st !! g = Some (Sing fn) ->
  globalContainerContext st = Some c ->
  governing st c D d = g ->
  is_Some (weakmaps st !! singletonsStateMap (cont st c)) ->
  call n D st = (Return v, st') ->
  wmap st' (singletonsStateMap (cont st c)) !! g = Some v.
Proof.
  intros HD Hg Hc Hgov Hw Hcall.
  destruct n as [|n]; [done|].
  rewrite (call_dependency n D d c st HD Hc), Hgov in Hcall.
  destruct (seed_frame c D d st) as (Eg & Ef & Ew & _ & Esm & _).
  remember (push c D (seed c D d st)) as st1 eqn:E1.
  assert (singletonsStateMap (cont st1 c) = singletonsStateMap (cont st c)) as Esm1.
  { rewrite E1. unfold push. rewrite singletonsStateMap_upd_cont by done.
    apply Esm. }
  destruct (call n g st1) as [o st2] eqn:E. simpl in Hcall.
  injection Hcall as -> <-.
  destruct n as [|n]; [done|].
  rewrite <- Esm1.
  apply (cache_kept_same_weakmaps st2); [done|].
  apply (call_singleton_caches n g fn c v st1 st2); auto.
  - rewrite E1. simpl. by rewrite Ef.
  - rewrite E1. simpl. by rewrite Eg.
  - rewrite Esm1, E1. simpl. by rewrite Ew.
Qed.

Lemma withContainer_some callf fn c st :
  withContainer callf fn (Some c) st =
    (fst (callf fn (set_global (Some c) st)),
     set_global (globalContainerContext st) (snd (callf fn (set_global (Some c) st)))).
Proof. unfold withContainer. by destruct (callf fn _). Qed.

(** C9, as the code has it: a clone has the WeakMap object of its source, so
    once the clone has computed and stored the value of a singleton
    function, the source's WeakMap holds it too, and the source's next call
    of that function returns that value and changes nothing in the store. *)
Theorem C9_clone_and_source_share_cache
    (st st' : state) (c1 c2 : caddr) (g fn : fnref) (n m : nat) (v : value) :
  is_Some (containers st !! c1) ->
  singletonsStateMap (cont st c2) = singletonsStateMap (cont st c1) ->
  is_Some (weakmaps st !! singletonsStateMap (cont st c1)) ->
  functions st !! g = Some (Sing fn) ->
  withContainer (call (S n)) g (Some c2) st = (Return v, st') ->
  wmap st' (singletonsStateMap (cont st' c1)) !! g = Some v /\
  withContainer (call (S m)) g (Some c1) st' = (Return v, st').
Proof.
  intros Hc1 Hsm Hw Hg Hrun. rewrite withContainer_some in Hrun.
  pose proof (extends_call (S n) g (set_global (Some c2) st)) as (HF & _ & HC).
  destruct (call (S n) g (set_global (Some c2) st)) as [o st2] eqn:E.
  simpl in Hrun, HF, HC. injection Hrun as -> <-.
  assert (wmap st2 (singletonsStateMap (cont st c1)) !! g = Some v) as Hv.
  { rewrite <- Hsm.
    apply (call_singleton_caches n g fn c2 v (set_global (Some c2) st) st2);
      auto. rewrite cont_set_global, Hsm. exact Hw. }
  destruct (HC c1 Hc1) as (_ & Esm & _). rewrite cont_set_global in Esm.
  assert (wmap (set_global (globalContainerContext st) st2)
            (singletonsStateMap (cont (set_global (globalContainerContext st) st2) c1))
            !! g = Some v) as Hv'.
  { rewrite cont_set_global, Esm. exact Hv. }
  split; [exact Hv'|].
  rewrite withContainer_some.
  rewrite (call_singleton_hit m g fn c1 v); auto.
Qed.

Lemma resolve_governed_hit_in m D d g fn c v st :
  functions st !! D = Some (Dep d) ->
  functions st !! g = Some (Sing fn) ->
  governing st c D d = g ->
  wmap st (singletonsStateMap (cont st c)) !! g = Some v ->
  fst (withContainer (call (S (S m))) D (Some c) st) = Return v.
Proof.
  intros HD Hg Hgov Hv. rewrite withContainer_some.
  by rewrite (resolve_governed_hit m D d g fn c v (set_global (Some c) st)).
Qed.

(** C2, as the code has it: a container [c1] in which the Dependency [D] is
    governed by a singleton function [g] (its default, or one bound to it),
    and a clone [c2] made before [D] is resolved in [c1] with value [v].
    The clone has a copy of [c1]'s [dependenciesMap] and [c1]'s WeakMap, so
    while the clone's entry for [D] is as cloning left it, a resolution in
    the clone returns [v] as well.  After the clone rebinds [D], a
    resolution in the clone calls the newly bound function and has its
    outcome, and a resolution in [c1] still returns [v], then and after
    anything the clone runs that leaves [D] governed by [g] in [c1]. *)
Theorem C2_clone_shares_until_rebind
    (st0 st1 st2 : state) (c1 c2 : caddr) (D d g fn h : fnref) (v : value)
    (n m : nat) :
  is_Some (containers st0 !! c1) ->
  is_Some (weakmaps st0 !! singletonsStateMap (cont st0 c1)) ->
  functions st0 !! D = Some (Dep d) ->
  functions st0 !! g = Some (Sing fn) ->
  governing st0 c1 D d = g ->
  createContainer (Some c1) st0 = (c2, st1) ->
  withContainer (call n) D (Some c1) st1 = (Return v, st2) ->
  governing st2 c1 D d = g ->
  dependenciesMap (cont st2 c2) !! D = dependenciesMap (cont st1 c2) !! D ->
  let r := withContainer (call (S (S m))) D (Some c2) st2 in
  let scope2 := set_global (Some c2) (snd r) in
  let f := bound_function scope2 c2 h in
  let st3 := snd (_bind D h scope2) in
  dependenciesMap (cont st1 c2) = dependenciesMap (cont st0 c1) /\
  singletonsStateMap (cont st1 c2) = singletonsStateMap (cont st1 c1) /\
  fst r = Return v /\
  dependenciesMap (cont st3 c2) !! D = Some f /\
  call (S m) D st3 =
    (fst (call m f (push c2 D st3)), pop c2 (snd (call m f (push c2 D st3)))) /\
  fst (withContainer (call (S (S m))) D (Some c1) st3) = Return v /\
  (forall k x,
     governing (snd (call k x st3)) c1 D d = g ->
     fst (withContainer (call (S (S m))) D (Some c1) (snd (call k x st3)))
       = Return v).
Proof.
  intros Hc1 Hw HD Hg Hgov0 Hclone Hrun Hgov1 Hframe.
  (* the clone *)
  assert (c2 = fst (createContainer (Some c1) st0)) as Ec2 by (by rewrite Hclone).
  assert (st1 = snd (createContainer (Some c1) st0)) as Est1 by (by rewrite Hclone).
  assert (c1 <> c2) as Hne.
  { rewrite Ec2. simpl. apply lookup_lt_is_Some in Hc1. lia. }
  pose proof (extends_createContainer (Some c1) st0) as (HF1 & HW1 & HC1).
  rewrite <- Est1 in HF1, HW1, HC1.
  assert (cont st1 c1 = cont st0 c1) as Econt1.
  { rewrite Est1. by apply cont_createContainer_old. }
  assert (dependenciesMap (cont st1 c2) = dependenciesMap (cont st0 c1)) as Edm2.
  { by rewrite Est1, Ec2, cont_createContainer_new. }
  assert (singletonsStateMap (cont st1 c2) = singletonsStateMap (cont st0 c1)) as Esm2.
  { by rewrite Est1, Ec2, cont_createContainer_new. }
  assert (is_Some (containers st1 !! c2)) as Hc2.
  { rewrite Est1, Ec2. simpl. rewrite list_lookup_middle; eauto. }
  (* the clone is governed as its source was *)
  assert (governing st2 c2 D d = g) as Hgov2.
  { unfold governing. rewrite Hframe, Edm2. exact Hgov0. }
  (* the resolution in c1 *)
  rewrite withContainer_some in Hrun.
  pose proof (extends_call n D (set_global (Some c1) st1)) as (HF2 & _ & HC2).
  destruct (call n D (set_global (Some c1) st1)) as [o s2] eqn:E.
  simpl in Hrun, HF2, HC2. injection Hrun as -> <-.
  assert (wmap s2 (singletonsStateMap (cont st0 c1)) !! g = Some v) as Hv.
  { rewrite <- Econt1.
    apply (resolve_governed_caches n D d g fn c1 v (set_global (Some c1) st1) s2);
      auto.
    - unfold governing. rewrite cont_set_global, Econt1. exact Hgov0.
    - rewrite cont_set_global, Econt1. by apply HW1. }
  set (st2 := set_global (globalContainerContext st1) s2) in *.
  assert (forall x, cont st2 x = cont s2 x) as Econt2 by done.
  assert (singletonsStateMap (cont st2 c1) = singletonsStateMap (cont st0 c1)) as Esm1'.
  { destruct (HC2 c1) as (_ & Esm & _); [by apply HC1|].
    by rewrite Econt2, Esm, cont_set_global, Econt1. }
  assert (singletonsStateMap (cont st2 c2) = singletonsStateMap (cont st0 c1)) as Esm2'.
  { destruct (HC2 c2 Hc2) as (_ & Esm & _).
    by rewrite Econt2, Esm, cont_set_global. }
  assert (is_Some (containers st2 !! c2)) as Hc2'.
  { by destruct (HC2 c2 Hc2). }
  assert (functions st2 !! D = Some (Dep d)) as HD2 by (apply HF2, HF1, HD).
  assert (functions st2 !! g = Some (Sing fn)) as Hg2 by (apply HF2, HF1, Hg).
  (* the resolution in the clone *)
  intros r scope2 f st3.
  assert (r = (Return v,
               set_global (globalContainerContext st2)
                 (resolved c2 D d (set_global (Some c2) st2)))) as Er.
  { unfold r. rewrite withContainer_some.
    rewrite (resolve_governed_hit m D d g fn c2 v (set_global (Some c2) st2));
      auto.
    rewrite cont_set_global, Esm2'. exact Hv. }
  pose proof (resolved_frame c2 D d (set_global (Some c2) st2))
    as (Rg & Rf & Rw & Rc & Rsm & Rdm & Rgov).
  cbv zeta in Rg, Rf, Rw, Rc, Rsm, Rdm, Rgov.
  remember (resolved c2 D d (set_global (Some c2) st2)) as s3 eqn:Es3.
  assert (scope2 = set_global (Some c2) s3) as Escope by (unfold scope2; by rewrite Er).
  assert (st3 = set_dep c2 D f scope2) as Est3.
  { unfold st3. by rewrite (bind_in_scope D h c2 scope2). }
  assert (is_Some (containers scope2 !! c2)) as Hc2s.
  { rewrite Escope. simpl. by apply Rc. }
  assert (dependenciesMap (cont st3 c2) !! D = Some f) as Hf.
  { rewrite Est3, dependenciesMap_set_dep by done. apply lookup_insert_eq. }
  split; [exact Edm2|].
  split; [by rewrite Esm2, Econt1|]. split; [by rewrite Er|]. split; [done|].
  (* the store after the rebinding *)
  assert (functions st3 !! D = Some (Dep d)) as HD3.
  { rewrite Est3, Escope. simpl. by rewrite Rf. }
  assert (functions st3 !! g = Some (Sing fn)) as Hg3.
  { rewrite Est3, Escope. simpl. by rewrite Rf. }
  assert (is_Some (containers st3 !! c1)) as Hc13.
  { rewrite Est3. apply (extends_set_dep c2 D f scope2).
    rewrite Escope. simpl. apply Rc. simpl. apply HC2, HC1, Hc1. }
  assert (governing st3 c1 D d = g) as Hgov3.
  { unfold governing. rewrite Est3.
    rewrite dependenciesMap_set_dep_ne by done.
    rewrite Escope, cont_set_global, Rdm by done.
    rewrite cont_set_global. exact Hgov1. }
  assert (singletonsStateMap (cont st3 c1) = singletonsStateMap (cont st0 c1)) as Esm3.
  { rewrite Est3. unfold set_dep.
    rewrite singletonsStateMap_upd_cont by done.
    by rewrite Escope, cont_set_global, Rsm, cont_set_global, Esm1'. }
  assert (wmap st3 (singletonsStateMap (cont st0 c1)) !! g = Some v) as Hv3.
  { rewrite Est3, Escope.
    apply (cache_kept_same_weakmaps s3); [done|].
    apply (cache_kept_same_weakmaps st2); [exact Rw|]. exact Hv. }
  split; [|split].
  - apply (call_dependency_bound m D d f c2 st3); [done|by rewrite Est3|done].
  - apply (resolve_governed_hit_in m D d g fn c1 v st3); auto.
    by rewrite Esm3.
  - intros k x Hgov4.
    pose proof (extends_call k x st3) as (HF4 & _ & HC4).
    destruct (HC4 c1 Hc13) as (_ & Esm4 & _).
    apply (resolve_governed_hit_in m D d g fn c1 v); auto.
    rewrite Esm4, Esm3. by apply (cache_kept_call k x st3).
Qed.

(** ** The end-to-end scenario *)

(** C1: with a counter that yields [i] and then [i + 1] (the scenario has
    [i = 0]), a transient Dependency resolved twice in one scoped execution
    gives [[i, i + 1]], a singleton Dependency resolved twice in one scoped
    execution gives [[i, i]], and resolved once in each of two scoped
    executions that get a fresh container each it gives [i] and [i + 1]. *)
Theorem C1_transient_and_singleton_scenario (n : nat) (i : Z) :
  fst (run (3 + n) transient_twice (counting_from i))
    = Return (VArr [VNum i; VNum (i + 1)]) /\
  fst (run (4 + n) singleton_twice (counting_from i))
    = Return (VArr [VNum i; VNum i]) /\
  fst (run (4 + n) singleton_two_runs (counting_from i))
    = Return (VArr [VNum i; VNum (i + 1)]).
Proof. repeat split; vm_compute; reflexivity. Qed.

(** The second half of the 'cloned containers' test: the source has
    rebound the singleton Dependency 3 to the singleton function 4 before it
    is cloned; the clone later rebinds it to the singleton function 2. *)
Lemma C2_clone_shares_until_rebind_witness :
  let st0 := snd (_bind 3%nat 5%nat (set_global (Some 0%nat) demo)) in
  let st1 := snd (createContainer (Some 0%nat) st0) in
  let st2 := snd (withContainer (call 3) 3%nat (Some 0%nat) st1) in
  let r := withContainer (call 4) 3%nat (Some 1%nat) st2 in
  let st3 := snd (_bind 3%nat 2%nat (set_global (Some 1%nat) (snd r))) in
  dependenciesMap (cont st0 0) !! 3%nat = Some 4%nat /\
  fst r = Return (VNum 0) /\
  fst (call 3 3%nat st3) = Return (VNum 1) /\
  fst (withContainer (call 4) 3%nat (Some 0%nat) (snd (call 3 3%nat st3)))
    = Return (VNum 0).
Proof.
  intros st0 st1 st2 r st3. split; [reflexivity|].
  destruct (C2_clone_shares_until_rebind st0 st1 st2 0%nat 1%nat 3%nat 2%nat
              4%nat 0%nat 2%nat (VNum 0) 3 2) as (_ & _ & Hr & _ & Hcall & _ & Hsrc).
  - vm_compute. eexists; reflexivity.
  - vm_compute. eexists; reflexivity.
  - reflexivity.
  - reflexivity.
  - reflexivity.
  - reflexivity.
  - vm_compute. reflexivity.
  - vm_compute. reflexivity.
  - vm_compute. reflexivity.
  - split; [exact Hr|]. split.
    + fold st0 st1 st2 r st3 in Hcall. rewrite Hcall. vm_compute. reflexivity.
    + apply (Hsrc 3%nat 3%nat). vm_compute. reflexivity.
Defined.

(** C2 as stated fails: in [demo_zero] the singleton Dependency 3 is
    resolved in the container 0 and in its clone 1 with value [0]; the clone
    then rebinds it to [singleton(() => 0)] (the Dependency 8), which stores
    a function that is new (7, not 2), and the clone's next resolution
    yields [0] again, the value of the source, not a different one. *)
Lemma C2_counterexample :
  let st1 := snd (createContainer (Some 0%nat) demo_zero) in
  let source_run := withContainer (call 3) 3%nat (Some 0%nat) st1 in
  let clone_run := withContainer (call 3) 3%nat (Some 1%nat) (snd source_run) in
  let st3 := snd (_bind 3%nat 8%nat (set_global (Some 1%nat) (snd clone_run))) in
  fst source_run = Return (VNum 0) /\
  fst clone_run = Return (VNum 0) /\
  dependenciesMap (cont (snd clone_run) 1) !! 3%nat = Some 2%nat /\
  dependenciesMap (cont st3 1) !! 3%nat = Some 7%nat /\
  fst (call 3 3%nat st3) = fst source_run /\
  fst (withContainer (call 3) 3%nat (Some 0%nat) (snd (call 3 3%nat st3)))
    = Return (VNum 0).
Proof. repeat split; vm_compute; reflexivity. Qed.

Lemma C5_bind_to_dependency_aliases_witness :
  let st := set_global (Some 0%nat) demo in
  _bind 1%nat 3%nat st = (Return tt, set_dep 0 1%nat 2%nat st) /\
  _bind 1%nat 3%nat (set_dep 0 3%nat 0%nat st)
    = (Return tt, set_dep 0 1%nat 0%nat (set_dep 0 3%nat 0%nat st)).
Proof.
  intros st. split.
  - destruct (C5_bind_to_dependency_aliases st 0%nat 1%nat 3%nat 2%nat)
      as (H & _); [reflexivity | vm_compute; eexists; reflexivity | reflexivity |].
    exact H.
  - destruct (C5_bind_to_dependency_aliases (set_dep 0 3%nat 0%nat st)
                0%nat 1%nat 3%nat 2%nat)
      as (H & _); [reflexivity | vm_compute; eexists; reflexivity | reflexivity |].
    exact H.
Defined.

Lemma C6_first_resolution_seeds_default_witness :
  let st := set_global (Some 0%nat) demo in
  dependenciesMap (cont st 0) !! 1%nat = None /\
  is_Some (dependenciesMap (cont (snd (call 2 1%nat st)) 0) !! 1%nat).
Proof.
  intros st. split; [reflexivity|].
  destruct (C6_first_resolution_seeds_default st 0%nat 1%nat 0%nat 1)
    as (_ & _ & _ & H & _);
    [reflexivity | vm_compute; eexists; reflexivity | reflexivity | reflexivity |].
  exact H.
Defined.

(** In [demo] with a clone of its container, the clone is the first to
    call the singleton function 2, and the source calls it next. *)
Lemma C9_clone_and_source_share_cache_witness :
  let st := snd (createContainer (Some 0%nat) demo) in
  let st' := snd (withContainer (call 2) 2%nat (Some 1%nat) st) in
  withContainer (call 2) 2%nat (Some 0%nat) st' = (Return (VNum 0), st').
Proof.
  intros st st'.
  destruct (C9_clone_and_source_share_cache st st' 0%nat 1%nat 2%nat 0%nat
              1 1 (VNum 0)) as (_ & H).
  - vm_compute. eexists; reflexivity.
  - reflexivity.
  - vm_compute. eexists; reflexivity.
  - reflexivity.
  - vm_compute. reflexivity.
  - exact H.
Defined.

(** C9 as stated fails: in [demo] with a clone of its container, the
    clone's first call of the singleton function puts an entry into the
    WeakMap that the source reads, and the source's next call returns the
    clone's value [0] without advancing the counter (its own computation
    would have given [1]). *)
Lemma C9_counterexample :
  let st := snd (createContainer (Some 0%nat) demo) in
  let clone_run := withContainer (call 2) 2%nat (Some 1%nat) st in
  let source_run := withContainer (call 2) 2%nat (Some 0%nat) (snd clone_run) in
  fst clone_run = Return (VNum 0) /\
  wmap (snd clone_run) (singletonsStateMap (cont (snd clone_run) 0)) !! 2%nat
    <> wmap st (singletonsStateMap (cont st 0)) !! 2%nat /\
  fst source_run = Return (VNum 0) /\
  fst source_run <> Return (VNum 1) /\
  cells (snd source_run) = cells (snd clone_run).
Proof.
  intros st clone_run source_run.
  split; [reflexivity|]. split; [vm_compute; discriminate|].
  split; [reflexivity|]. split; [vm_compute; discriminate|reflexivity].
Qed.

Lemma C10_alias_resolved_at_bind_time_witness :
  let st := set_global (Some 0%nat) demo in
  let st2 := snd (_bind 3%nat 0%nat (snd (_bind 1%nat 3%nat st))) in
  dependenciesMap (cont st2 0) !! 1%nat = Some 2%nat.
Proof.
  intros st st2.
  destruct (C10_alias_resolved_at_bind_time st 0%nat 1%nat 3%nat 2%nat 0%nat)
    as (_ & _ & H & _).
  - reflexivity.
  - vm_compute. eexists; reflexivity.
  - reflexivity.
  - intros [d Hd]. vm_compute in Hd. discriminate Hd.
  - discriminate.
  - exact H.
Defined.

(** C10 as stated fails: in [alias_chain] the entry stored for [D] (3) by
    [bind(D, B)] is the Dependency [B] (1) itself, and the two resolutions
    of [D] follow the two later rebindings of [B]. *)
Lemma C10_counterexample :
  let r := run 5 alias_chain initial in
  fst r = Return (VArr [VNum 7; VNum 8]) /\
  dependenciesMap (cont (snd r) 0) !! 3%nat = Some 1%nat /\
  functions (snd r) !! 1%nat = Some (Dep 0).
Proof. repeat split; vm_compute; reflexivity. Qed.

(** ** Further properties of the library *)

(** *** What no call changes *)

Lemma ambient_kept_call fuel f st :
  globalContainerContext (snd (call fuel f st)) = globalContainerContext st.
Proof.
  apply (call_R (fun a b => globalContainerContext b = globalContainerContext a));
    clear; try done.
  - intros a b c Hab Hbc. by rewrite Hbc.
  - intros src st. apply createContainer_global.
Qed.

Lemma ambient_kept_exec fuel p st :
  globalContainerContext (snd (exec (call fuel) p st)) = globalContainerContext st.
Proof.
  apply (exec_R (fun a b => globalContainerContext b = globalContainerContext a));
    try done.
  - intros a b c Hab Hbc. by rewrite Hbc.
  - intros src s. apply createContainer_global.
  - apply ambient_kept_call.
Qed.

Lemma set_global_restore g st :
  set_global (globalContainerContext st) (set_global g st) = st.
Proof. by destruct st. Qed.

(** X1: [withContainer] is the only writer of [globalContainerContext], and
    it puts back what it found: after any call of any function object, and
    after any program, the ambient slot holds what it held before. *)
Theorem X1_ambient_kept_by_every_call
    (fuel : nat) (f : fnref) (p : prog) (st : state) :
  globalContainerContext (snd (call fuel f st)) = globalContainerContext st /\
  globalContainerContext (snd (run fuel p st)) = globalContainerContext st.
Proof. split; [apply ambient_kept_call | apply ambient_kept_exec]. Qed.

(** X2: nothing is ever taken away.  Through any call a function object
    stays what it is, an allocated container stays allocated and keeps its
    [singletonsStateMap] reference, and a Dependency that has an entry in a
    container's [dependenciesMap] still has one (the library has no
    unbind). *)
Theorem X2_call_never_removes
    (fuel : nat) (f x c d : fnref) (o : fobj) (st : state) :
  functions st !! x = Some o ->
  is_Some (containers st !! c) ->
  is_Some (dependenciesMap (cont st c) !! d) ->
  let st' := snd (call fuel f st) in
  functions st' !! x = Some o /\
  is_Some (containers st' !! c) /\
  singletonsStateMap (cont st' c) = singletonsStateMap (cont st c) /\
  is_Some (dependenciesMap (cont st' c) !! d).
Proof.
  intros Hx Hc Hd st'.
  destruct (extends_call fuel f st) as (HF & _ & HC).
  destruct (HC c Hc) as (H1 & H2 & H3). auto.
Qed.

Lemma X2_call_never_removes_witness :
  let st := set_dep 0 1%nat 0%nat (set_global (Some 0%nat) demo) in
  is_Some (dependenciesMap (cont (snd (call 4 3%nat st)) 0) !! 1%nat).
Proof.
  intros st.
  destruct (X2_call_never_removes 4 3%nat 0%nat 0%nat 1%nat (Plain (counter 0)) st)
    as (_ & _ & _ & H).
  - reflexivity.
  - vm_compute. eexists; reflexivity.
  - vm_compute. eexists; reflexivity.
  - exact H.
Defined.

(** X3: an entry that a container's WeakMap holds for a singleton function
    when a call starts is still there, with the same value, when the call is
    over, whatever was called; a scoped execution of the function over that
    container then returns that value and leaves the store as it was.  The
    calls meant are those that start when the entry exists: a miss of the
    same function that was pending when the entry was written started
    before, and stores its own value when it returns
    ([call_singleton_caches]). *)
Theorem X3_cached_singleton_value_is_stable
    (st : state) (c : caddr) (g fn x : fnref) (v : value) (k m : nat) :
  functions st !! g = Some (Sing fn) ->
  is_Some (containers st !! c) ->
  wmap st (singletonsStateMap (cont st c)) !! g = Some v ->
  let st' := snd (call k x st) in
  wmap st' (singletonsStateMap (cont st' c)) !! g = Some v /\
  withContainer (call (S m)) g (Some c) st' = (Return v, st').
Proof.
  intros Hg Hc Hv st'.
  destruct (extends_call k x st) as (HF & _ & HC).
  destruct (HC c Hc) as (_ & Esm & _).
  assert (wmap st' (singletonsStateMap (cont st' c)) !! g = Some v) as Hv'.
  { unfold st'. rewrite Esm. by apply (cache_kept_call k x st). }
  split; [exact Hv'|].
  rewrite withContainer_some.
  rewrite (call_singleton_hit m g fn c v (set_global (Some c) st')); auto.
  simpl. by rewrite set_global_restore.
Qed.

Lemma X3_cached_singleton_value_is_stable_witness :
  let st := snd (withContainer (call 2) 2%nat (Some 0%nat) demo) in
  let st' := snd (call 3 1%nat (set_global (Some 0%nat) st)) in
  get_cell st' 0 = VNum 2 /\
  withContainer (call 1) 2%nat (Some 0%nat) st' = (Return (VNum 0), st').
Proof.
  intros st st'. split; [reflexivity|].
  destruct (X3_cached_singleton_value_is_stable (set_global (Some 0%nat) st)
              0%nat 2%nat 0%nat 1%nat (VNum 0) 3 0) as (_ & H).
  - reflexivity.
  - vm_compute. eexists; reflexivity.
  - reflexivity.
  - exact H.
Defined.

(** X10: every call leaves every [callersStack] as it was, not only the
    resolution of a Dependency: a scoped execution, with a container given
    or created, and any program. *)
Theorem X10_stacks_kept_by_scoped_execution
    (fuel : nat) (fn : fnref) (context : option caddr) (p : prog) (c : caddr)
    (st : state) :
  callersStack (cont (snd (withContainer (call fuel) fn context st)) c)
    = callersStack (cont st c) /\
  callersStack (cont (snd (run fuel p st)) c) = callersStack (cont st c).
Proof.
  split.
  - apply (withContainer_R same_stacks same_stacks_trans
             same_stacks_createContainer (fun g a b H x => H x)
             (call fuel) (same_stacks_call fuel)).
  - apply (run_R same_stacks same_stacks_refl same_stacks_trans
             same_stacks_set_dep (fun w self v a b _ H x => H x)
             (fun o a x => eq_refl) same_stacks_createContainer
             (fun l v a x => eq_refl) same_stacks_bracket
             (fun g a b H x => H x)).
Qed.

(** *** Singletons, containers and rebinding *)

(** X4: a Dependency governed by a singleton function, resolved in two
    scoped executions over the same container: as long as the function
    that governs it is the same, the second execution returns the value of
    the first, and neither a cell nor a WeakMap changes in it. *)
Theorem X4_singleton_once_per_container
    (st st' : state) (c : caddr) (D d g fn : fnref) (v : value) (n m : nat) :
  functions st !! D = Some (Dep d) ->
  functions st !! g = Some (Sing fn) ->
  is_Some (containers st !! c) ->
  is_Some (weakmaps st !! singletonsStateMap (cont st c)) ->
  governing st c D d = g ->
  withContainer (call n) D (Some c) st = (Return v, st') ->
  governing st' c D d = g ->
  let r := withContainer (call (S (S m))) D (Some c) st' in
  fst r = Return v /\ cells (snd r) = cells st' /\ weakmaps (snd r) = weakmaps st'.
Proof.
  intros HD Hg Hc Hw Hgov Hrun Hgov' r.
  rewrite withContainer_some in Hrun.
  pose proof (extends_call n D (set_global (Some c) st)) as (HF & _ & HC).
  destruct (call n D (set_global (Some c) st)) as [o s2] eqn:E.
  simpl in Hrun, HF, HC. injection Hrun as -> <-.
  assert (wmap s2 (singletonsStateMap (cont st c)) !! g = Some v) as Hv.
  { by apply (resolve_governed_caches n D d g fn c v (set_global (Some c) st) s2). }
  destruct (HC c Hc) as (_ & Esm & _). rewrite cont_set_global in Esm.
  unfold r. rewrite withContainer_some.
  rewrite (resolve_governed_hit m D d g fn c v); auto.
  - simpl. unfold seed.
    by destruct (dependenciesMap _ !! D).
  - rewrite !cont_set_global, Esm. exact Hv.
Qed.

Lemma X4_singleton_once_per_container_witness :
  let st' := snd (withContainer (call 3) 3%nat (Some 0%nat) demo) in
  fst (withContainer (call 3) 3%nat (Some 0%nat) st') = Return (VNum 0).
Proof.
  intros st'.
  destruct (X4_singleton_once_per_container demo st' 0%nat 3%nat 2%nat 2%nat
              0%nat (VNum 0) 3 1) as (H & _).
  - reflexivity.
  - reflexivity.
  - vm_compute. eexists; reflexivity.
  - vm_compute. eexists; reflexivity.
  - reflexivity.
  - vm_compute. reflexivity.
  - vm_compute. reflexivity.
  - exact H.
Defined.

(** X12: [_bind] writes no WeakMap, so rebinding invalidates nothing: a
    Dependency rebound to a singleton function whose value the container's
    WeakMap holds resolves to that value, and the function under the
    singleton is not called. *)
Theorem X12_rebinding_keeps_the_cache
    (st : state) (c : caddr) (D d g fn : fnref) (v : value) (m : nat) :
  globalContainerContext st = Some c ->
  is_Some (containers st !! c) ->
  functions st !! D = Some (Dep d) ->
  functions st !! g = Some (Sing fn) ->
  wmap st (singletonsStateMap (cont st c)) !! g = Some v ->
  let st' := snd (_bind D g st) in
  weakmaps st' = weakmaps st /\
  dependenciesMap (cont st' c) !! D = Some g /\
  call (S (S m)) D st' = (Return v, pop c (push c D st')).
Proof.
  intros Hc Hv HD Hg Hw st'.
  assert (st' = set_dep c D g st) as E.
  { unfold st'. rewrite (bind_in_scope D g c st Hc). simpl.
    unfold bound_function. by rewrite Hg. }
  assert (dependenciesMap (cont st' c) !! D = Some g) as Hb.
  { rewrite E, dependenciesMap_set_dep by done. apply lookup_insert_eq. }
  split; [by rewrite E|]. split; [done|].
  rewrite (resolve_governed_hit m D d g fn c v st').
  - unfold resolved, seed. by rewrite Hb.
  - by rewrite E.
  - by rewrite E.
  - by rewrite E.
  - unfold governing. by rewrite Hb.
  - rewrite E. unfold set_dep at 2.
    rewrite singletonsStateMap_upd_cont by done. exact Hw.
Qed.

Lemma X12_rebinding_keeps_the_cache_witness :
  let st := set_global (Some 0%nat)
              (snd (withContainer (call 3) 3%nat (Some 0%nat) demo)) in
  fst (call 2 1%nat (snd (_bind 1%nat 2%nat st))) = Return (VNum 0).
Proof.
  intros st.
  destruct (X12_rebinding_keeps_the_cache st 0%nat 1%nat 0%nat 2%nat 0%nat
              (VNum 0) 0) as (_ & _ & H).
  - reflexivity.
  - vm_compute. eexists; reflexivity.
  - reflexivity.
  - reflexivity.
  - reflexivity.
  - by rewrite H.
Defined.

Lemma cont_createContainer_fresh st :
  cont (snd (createContainer None st)) (fst (createContainer None st)) =
  {| dependenciesMap := ∅; singletonsStateMap := length (weakmaps st);
     callersStack := [] |}.
Proof. unfold cont; simpl. by rewrite list_lookup_middle. Qed.

Lemma withContainer_none callf fn st :
  withContainer callf fn None st =
    (fst (callf fn (set_global (Some (fst (createContainer None st)))
                      (snd (createContainer None st)))),
     set_global (globalContainerContext st)
       (snd (callf fn (set_global (Some (fst (createContainer None st)))
                         (snd (createContainer None st)))))).
Proof.
  unfold withContainer.
  destruct (createContainer None st) as [c s0] eqn:E.
  assert (globalContainerContext s0 = globalContainerContext st) as ->.
  { by rewrite <- (createContainer_global None st), E. }
  simpl. by destruct (callf fn _).
Qed.

(** X5: [withContainer] without a container runs in a new one that has no
    binding, no caller and a new, empty WeakMap; a singleton Dependency
    resolved there computes its value afresh, whatever other containers
    have cached: the outcome is that of the function under the singleton. *)
Theorem X5_fresh_container_computes_afresh
    (st : state) (D g fn : fnref) (n : nat) :
  functions st !! D = Some (Dep g) ->
  functions st !! g = Some (Sing fn) ->
  let c := fst (createContainer None st) in
  let st0 := set_global (Some c) (snd (createContainer None st)) in
  dependenciesMap (cont st0 c) = ∅ /\
  callersStack (cont st0 c) = [] /\
  wmap st0 (singletonsStateMap (cont st0 c)) = ∅ /\
  weakmaps st !! singletonsStateMap (cont st0 c) = None /\
  fst (withContainer (call (S (S n))) D None st)
    = fst (call n fn (push c D (set_dep c D g st0))).
Proof.
  intros HD Hg c st0.
  assert (cont st0 c = {| dependenciesMap := ∅;
                          singletonsStateMap := length (weakmaps st);
                          callersStack := [] |}) as Ec.
  { unfold st0, c. rewrite cont_set_global. apply cont_createContainer_fresh. }
  assert (wmap st0 (length (weakmaps st)) = ∅) as Ew.
  { unfold wmap. simpl. by rewrite list_lookup_middle. }
  split; [by rewrite Ec|]. split; [by rewrite Ec|].
  split; [by rewrite Ec|].
  split; [rewrite Ec; by apply lookup_ge_None|].
  rewrite withContainer_none. fold c. fold st0. cbv [fst].
  assert (is_Some (containers st0 !! c)) as Hc.
  { unfold st0, c. simpl. rewrite list_lookup_middle; eauto. }
  rewrite (call_dependency_unbound (S n) D g c st0); [|done|done|by rewrite Ec].
  remember (push c D (set_dep c D g st0)) as st1 eqn:E1.
  assert (singletonsStateMap (cont st1 c) = length (weakmaps st)) as Esm.
  { rewrite E1. unfold push, set_dep.
    rewrite !singletonsStateMap_upd_cont by done. by rewrite Ec. }
  assert (wmap st1 (length (weakmaps st)) = ∅) as Ew1.
  { rewrite E1. exact Ew. }
  assert (functions st1 !! g = Some (Sing fn)) as Hg1 by (by rewrite E1).
  assert (globalContainerContext st1 = Some c) as Hc1 by (by rewrite E1).
  cbv [fst]. simpl call.
  unfold call_obj, singletonFunction_self, _context, assertContainerContext.
  rewrite Hg1, Hc1, Esm, Ew1, lookup_empty.
  by destruct (call n fn st1) as [[v|e|] s1].
Qed.

Lemma X5_fresh_container_computes_afresh_witness :
  let st := snd (withContainer (call 3) 3%nat (Some 0%nat) demo) in
  fst (withContainer (call 3) 3%nat (Some 0%nat) st) = Return (VNum 0) /\
  fst (withContainer (call 3) 3%nat None st) = Return (VNum 1).
Proof.
  intros st. split; [reflexivity|].
  destruct (X5_fresh_container_computes_afresh st 3%nat 2%nat 0%nat 1)
    as (_ & _ & _ & _ & H); [reflexivity | reflexivity |].
  rewrite H. vm_compute. reflexivity.
Defined.

(** X6: a clone gets a copy of its source's [dependenciesMap], and a
    rebinding touches the active container only: binding in the clone leaves
    the source's map as it was, binding in the source leaves the clone's,
    and neither writes a WeakMap. *)
Theorem X6_rebinding_is_local_to_the_container
    (st : state) (c1 D fn : fnref) :
  is_Some (containers st !! c1) ->
  let c2 := fst (createContainer (Some c1) st) in
  let st1 := snd (createContainer (Some c1) st) in
  let in_clone := snd (_bind D fn (set_global (Some c2) st1)) in
  let in_source := snd (_bind D fn (set_global (Some c1) st1)) in
  c2 <> c1 /\
  dependenciesMap (cont st1 c2) = dependenciesMap (cont st c1) /\
  dependenciesMap (cont in_clone c1) = dependenciesMap (cont st c1) /\
  dependenciesMap (cont in_clone c2) !! D
    = Some (bound_function (set_global (Some c2) st1) c2 fn) /\
  dependenciesMap (cont in_source c2) = dependenciesMap (cont st c1) /\
  weakmaps in_clone = weakmaps st /\
  weakmaps in_source = weakmaps st.
Proof.
  intros Hc1 c2 st1 in_clone in_source.
  assert (c2 <> c1) as Hne.
  { unfold c2. simpl. apply lookup_lt_is_Some in Hc1. lia. }
  assert (cont st1 c1 = cont st c1) as E1.
  { unfold st1. by apply cont_createContainer_old. }
  assert (dependenciesMap (cont st1 c2) = dependenciesMap (cont st c1)) as E2.
  { unfold st1, c2. by rewrite cont_createContainer_new. }
  assert (is_Some (containers st1 !! c2)) as Hc2.
  { unfold st1, c2. simpl. rewrite list_lookup_middle; eauto. }
  unfold in_clone, in_source.
  rewrite (bind_in_scope D fn c2 (set_global (Some c2) st1)) by done.
  rewrite (bind_in_scope D fn c1 (set_global (Some c1) st1)) by done.
  simpl.
  split; [done|]. split; [done|]. split; [|split; [|split]].
  - rewrite dependenciesMap_set_dep_ne by done. by rewrite cont_set_global, E1.
  - rewrite dependenciesMap_set_dep by done. apply lookup_insert_eq.
  - rewrite dependenciesMap_set_dep_ne by done. by rewrite cont_set_global.
  - done.
Qed.

Lemma X6_rebinding_is_local_to_the_container_witness :
  let st1 := snd (createContainer (Some 0%nat) demo) in
  let in_clone := snd (_bind 3%nat 0%nat (set_global (Some 1%nat) st1)) in
  dependenciesMap (cont in_clone 0) = dependenciesMap (cont demo 0) /\
  dependenciesMap (cont in_clone 1) !! 3%nat = Some 0%nat.
Proof.
  intros st1 in_clone.
  destruct (X6_rebinding_is_local_to_the_container demo 0%nat 3%nat 0%nat)
    as (_ & _ & H1 & H2 & _).
  - vm_compute. eexists; reflexivity.
  - split; [exact H1 | exact H2].
Defined.

(** X7: a singleton function stores a value only when the function under
    it returns one.  When that function throws, the throw passes through,
    the store is as the function left it, and, the WeakMap still having no
    entry, the next call runs the function again. *)
Theorem X7_singleton_does_not_cache_a_throw
    (st st1 : state) (c : caddr) (g fn : fnref) (e : error) (n m : nat) :
  functions st !! g = Some (Sing fn) ->
  globalContainerContext st = Some c ->
  is_Some (containers st !! c) ->
  wmap st (singletonsStateMap (cont st c)) !! g = None ->
  call n fn st = (Throws e, st1) ->
  wmap st1 (singletonsStateMap (cont st1 c)) !! g = None ->
  call (S n) g st = (Throws e, st1) /\
  fst (call (S m) g st1) = fst (call m fn st1).
Proof.
  intros Hg Hc Hv Hnone Hfn Hnone1.
  split.
  - simpl. unfold call_obj, singletonFunction_self, _context,
      assertContainerContext.
    by rewrite Hg, Hc, Hnone, Hfn.
  - pose proof (ambient_kept_call n fn st) as Hamb.
    pose proof (extends_call n fn st) as (HF & _ & _).
    rewrite Hfn in Hamb, HF. simpl in Hamb, HF.
    simpl. unfold call_obj, singletonFunction_self, _context,
      assertContainerContext.
    rewrite (HF g _ Hg), Hamb, Hc, Hnone1.
    by destruct (call m fn st1) as [[v|e'|] s].
Qed.

Lemma X7_singleton_does_not_cache_a_throw_witness :
  let flaky :=
    GetCell 0 (fun v =>
      match v with
      | VNum 0 => SetCell 0 (VNum 1) (Throw (VStr "not ready"))
      | _ => Ret (VNum 5)
      end) in
  let st := set_global (Some 0%nat)
              (snd (createContainer None
                      {| globalContainerContext := None; containers := [];
                         weakmaps := []; functions := [Plain flaky; Sing 0];
                         cells := {[ 0%nat := VNum 0 ]} |})) in
  let st1 := snd (call 1 0%nat st) in
  call 2 1%nat st = (Throws (Thrown (VStr "not ready")), st1) /\
  fst (call 2 1%nat st1) = Return (VNum 5).
Proof.
  intros flaky st st1.
  destruct (X7_singleton_does_not_cache_a_throw st st1 0%nat 1%nat 0%nat
              (Thrown (VStr "not ready")) 1 1) as (H1 & H2).
  - reflexivity.
  - reflexivity.
  - vm_compute. eexists; reflexivity.
  - reflexivity.
  - vm_compute. reflexivity.
  - reflexivity.
  - split; [exact H1|]. rewrite H2. vm_compute. reflexivity.
Defined.

(** *** Callers *)

(** X8: inside the function that governs a Dependency, [getCaller] names the
    Dependency that was being resolved when this one was invoked, the last
    entry the stack had then, and nothing when the stack was empty: the
    function's continuation runs on that answer, between the push and the
    pop of the Dependency itself. *)
Theorem X8_getCaller_names_the_resolving_parent
    (st : state) (c : caddr) (D d f : fnref) (k : option fnref -> prog) (n : nat) :
  globalContainerContext st = Some c ->
  is_Some (containers st !! c) ->
  functions st !! D = Some (Dep d) ->
  governing st c D d = f ->
  functions st !! f = Some (Plain (GetCaller k)) ->
  let entered := push c D (seed c D d st) in
  let r := exec (call n) (k (last (callersStack (cont st c)))) entered in
  callersStack (cont entered c) = callersStack (cont st c) ++ [D] /\
  call (S (S n)) D st = (fst r, pop c (snd r)).
Proof.
  intros Hc Hv HD Hgov Hf entered r.
  destruct (seed_frame c D d st) as (Eg & Ef & _ & _ & _ & Estk & Hval).
  assert (callersStack (cont entered c) = callersStack (cont st c) ++ [D]) as Es.
  { unfold entered. rewrite callersStack_push by auto. by rewrite Estk. }
  split; [exact Es|].
  rewrite (call_dependency (S n) D d c st HD Hc), Hgov. fold entered.
  assert (call (S n) f entered = r) as ->; [|done].
  simpl. unfold call_obj.
  assert (functions entered !! f = Some (Plain (GetCaller k))) as ->.
  { unfold entered. simpl. by rewrite Ef. }
  simpl. unfold getCaller, _context, assertContainerContext.
  assert (globalContainerContext entered = Some c) as ->.
  { unfold entered. simpl. by rewrite Eg. }
  by rewrite Es, second_to_last_snoc.
Qed.

(** The [getCaller] example of the documentation: [dep] answers 1 when
    called from [d1] (function 2), 2 when called from [d2] (function 3). *)
Lemma X8_getCaller_names_the_resolving_parent_witness :
  let answer :=
    GetCaller (fun r =>
      match r with
      | Some 2%nat => Ret (VNum 1)
      | Some 3%nat => Ret (VNum 2)
      | _ => Ret VUndefined
      end) in
  let st := set_global (Some 0%nat)
              (snd (createContainer None
                      {| globalContainerContext := None; containers := [];
                         weakmaps := [];
                         functions := [Plain answer; Dep 0;
                                       Dep 4; Dep 5;
                                       Plain (Call 1%nat Ret);
                                       Plain (Call 1%nat Ret)];
                         cells := ∅ |})) in
  fst (call 3 1%nat (push 0 2%nat st)) = Return (VNum 1) /\
  fst (call 5 2%nat st) = Return (VNum 1) /\
  fst (call 5 3%nat st) = Return (VNum 2) /\
  fst (call 3 1%nat st) = Return VUndefined.
Proof.
  intros answer st.
  split; [|repeat split; vm_compute; reflexivity].
  destruct (X8_getCaller_names_the_resolving_parent (push 0 2%nat st) 0%nat
              1%nat 0%nat 0%nat
              (fun r => match r with
                        | Some 2%nat => Ret (VNum 1)
                        | Some 3%nat => Ret (VNum 2)
                        | _ => Ret VUndefined
                        end) 1) as (_ & H).
  - reflexivity.
  - vm_compute. eexists; reflexivity.
  - reflexivity.
  - reflexivity.
  - reflexivity.
  - rewrite H. vm_compute. reflexivity.
Defined.

(** X11: [callersStack] belongs to the container, not to the scoped
    execution.  [withContainer] over a container that is in the middle of
    resolutions neither empties nor replaces its stack, so a [getCaller] at
    the top of the body answers from the entries that are there; over a new
    container it answers nothing. *)
Theorem X11_scoped_execution_keeps_the_callers
    (st : state) (c : caddr) (f : fnref) (k : option fnref -> prog) (n : nat) :
  functions st !! f = Some (Plain (GetCaller k)) ->
  let inside := set_global (Some c) st in
  let fresh := set_global (Some (fst (createContainer None st)))
                 (snd (createContainer None st)) in
  withContainer (call (S n)) f (Some c) st =
    (fst (exec (call n) (k (second_to_last (callersStack (cont st c)))) inside),
     set_global (globalContainerContext st)
       (snd (exec (call n) (k (second_to_last (callersStack (cont st c)))) inside))) /\
  fst (withContainer (call (S n)) f None st) = fst (exec (call n) (k None) fresh).
Proof.
  intros Hf inside fresh. split.
  - rewrite withContainer_some. fold inside.
    assert (call (S n) f inside
            = exec (call n) (k (second_to_last (callersStack (cont st c)))) inside)
      as ->; [|done].
    simpl. unfold call_obj.
    assert (functions inside !! f = Some (Plain (GetCaller k))) as -> by done.
    done.
  - rewrite withContainer_none. fold fresh. cbv [fst].
    assert (call (S n) f fresh = exec (call n) (k None) fresh) as ->; [|done].
    simpl. unfold call_obj.
    assert (functions fresh !! f = Some (Plain (GetCaller k))) as ->.
    { unfold fresh. simpl. by destruct st. }
    simpl. unfold getCaller, _context, assertContainerContext. simpl.
    unfold fresh at 1. rewrite cont_set_global, cont_createContainer_fresh.
    done.
Qed.

Lemma X11_scoped_execution_keeps_the_callers_witness :
  let report := GetCaller (fun r =>
                  match r with
                  | Some p => Ret (VFun p)
                  | None => Ret VUndefined
                  end) in
  let st := push 0 8%nat (push 0 7%nat
              (snd (createContainer None
                      {| globalContainerContext := None; containers := [];
                         weakmaps := []; functions := [Plain report];
                         cells := ∅ |}))) in
  fst (withContainer (call 1) 0%nat (Some 0%nat) st) = Return (VFun 7%nat) /\
  fst (withContainer (call 1) 0%nat None st) = Return VUndefined.
Proof.
  intros report st.
  destruct (X11_scoped_execution_keeps_the_callers st 0%nat 0%nat
              (fun r => match r with
                        | Some p => Ret (VFun p)
                        | None => Ret VUndefined
                        end) 0) as (H1 & H2); [reflexivity|].
  split; [by rewrite H1 | by rewrite H2].
Defined.

(** *** Cycles *)

Lemma cycle_exhausts c D d f k n :
  forall st,
    globalContainerContext st = Some c ->
    functions st !! D = Some (Dep d) ->
    functions st !! f = Some (Plain (Call D k)) ->
    governing st c D d = f ->
    fst (call n D st) = OutOfFuel /\ fst (call n f st) = OutOfFuel.
Proof.
  induction n as [|n IH]; intros st Hc HD Hf Hgov; [done|].
  split.
  - rewrite (call_dependency n D d c st HD Hc), Hgov. simpl.
    destruct (seed_frame c D d st) as (Eg & Ef & _).
    apply IH.
    + simpl. by rewrite Eg.
    + simpl. by rewrite Ef.
    + simpl. by rewrite Ef.
    + unfold governing. rewrite dependenciesMap_push.
      rewrite <- Hgov. apply governing_seed.
  - simpl. unfold call_obj. rewrite Hf. simpl.
    destruct (IH st Hc HD Hf Hgov) as (H & _).
    destruct (call n D st) as [[v|e|] s]; simpl in *; done.
Qed.

(** X9: there is no cycle detection.  A Dependency governed by a function
    that starts by resolving that same Dependency returns at no call depth;
    each level only pushes and descends, until the stack is exhausted, and
    then every [callersStack] is put back as it was. *)
Theorem X9_cycle_is_not_detected
    (st : state) (c : caddr) (D d f : fnref) (k : value -> prog) (n : nat) :
  globalContainerContext st = Some c ->
  functions st !! D = Some (Dep d) ->
  functions st !! f = Some (Plain (Call D k)) ->
  governing st c D d = f ->
  fst (call n D st) = OutOfFuel /\
  forall x, callersStack (cont (snd (call n D st)) x) = callersStack (cont st x).
Proof.
  intros Hc HD Hf Hgov. split.
  - by destruct (cycle_exhausts c D d f k n st).
  - apply same_stacks_call.
Qed.

Lemma X9_cycle_is_not_detected_witness :
  let st := set_global (Some 0%nat)
              (snd (createContainer None
                      {| globalContainerContext := None; containers := [];
                         weakmaps := [];
                         functions := [Plain (Call 1%nat Ret); Dep 0];
                         cells := ∅ |})) in
  fst (call 1000 1%nat st) = OutOfFuel.
Proof.
  intros st.
  destruct (X9_cycle_is_not_detected st 0%nat 1%nat 0%nat 0%nat Ret 1000)
    as (H & _); [reflexivity | reflexivity | reflexivity | reflexivity |].
  exact H.
Defined.

(** *** Failures and fresh cache slots *)

(** X13: the library neither wraps nor swallows a failure.  What the
    function governing a Dependency throws is what the scoped execution
    that resolved the Dependency throws, after the pop and with the ambient
    slot put back. *)
Theorem X13_throw_passes_through_unchanged
    (st s : state) (c : caddr) (D d : fnref) (e : error) (n : nat) :
  functions st !! D = Some (Dep d) ->
  call n (governing (set_global (Some c) st) c D d)
         (push c D (seed c D d (set_global (Some c) st))) = (Throws e, s) ->
  withContainer (call (S n)) D (Some c) st =
    (Throws e, set_global (globalContainerContext st) (pop c s)).
Proof.
  intros HD Hf. rewrite withContainer_some.
  rewrite (call_dependency n D d c (set_global (Some c) st)) by done.
  by rewrite Hf.
Qed.

Lemma X13_throw_passes_through_unchanged_witness :
  let st := snd (createContainer None
                   {| globalContainerContext := None; containers := [];
                      weakmaps := [];
                      functions := [Plain (Throw (VStr "boom")); Dep 0];
                      cells := ∅ |}) in
  fst (withContainer (call 2) 1%nat (Some 0%nat) st)
    = Throws (Thrown (VStr "boom")) /\
  callersStack (cont (snd (withContainer (call 2) 1%nat (Some 0%nat) st)) 0) = [].
Proof.
  intros st.
  rewrite (X13_throw_passes_through_unchanged st
             (snd (call 1 0%nat (push 0 1%nat
                     (seed 0 1%nat 0%nat (set_global (Some 0%nat) st)))))
             0%nat 1%nat 0%nat (Thrown (VStr "boom")) 1);
    [split; reflexivity | reflexivity | vm_compute; reflexivity].
Defined.

(** X14: the cache is keyed by the function, not by the Dependency.  A
    Dependency rebound to a singleton function for which the container's
    WeakMap has no entry computes anew on its next resolution, whatever
    value the function bound before had cached: the outcome is that of the
    function under the new singleton. *)
Theorem X14_rebinding_to_an_uncached_singleton_computes
    (st : state) (c : caddr) (D d g fn : fnref) (n : nat) :
  globalContainerContext st = Some c ->
  is_Some (containers st !! c) ->
  functions st !! D = Some (Dep d) ->
  functions st !! g = Some (Sing fn) ->
  wmap st (singletonsStateMap (cont st c)) !! g = None ->
  let st' := snd (_bind D g st) in
  fst (call (S (S n)) D st') = fst (call n fn (push c D st')).
Proof.
  intros Hc Hv HD Hg Hnone st'.
  assert (st' = set_dep c D g st) as E.
  { unfold st'. rewrite (bind_in_scope D g c st Hc). simpl.
    unfold bound_function. by rewrite Hg. }
  assert (dependenciesMap (cont st' c) !! D = Some g) as Hb.
  { rewrite E, dependenciesMap_set_dep by done. apply lookup_insert_eq. }
  rewrite (call_dependency_bound (S n) D d g c st');
    [|by rewrite E|by rewrite E|done].
  remember (push c D st') as st1 eqn:E1.
  assert (functions st1 !! g = Some (Sing fn)) as Hg1 by (by rewrite E1, E).
  assert (globalContainerContext st1 = Some c) as Hc1 by (by rewrite E1, E).
  assert (wmap st1 (singletonsStateMap (cont st1 c)) !! g = None) as Hn1.
  { rewrite E1. unfold push. rewrite singletonsStateMap_upd_cont by done.
    rewrite E. unfold set_dep at 2.
    rewrite singletonsStateMap_upd_cont by done. exact Hnone. }
  cbv [fst]. simpl call.
  unfold call_obj, singletonFunction_self, _context, assertContainerContext.
  rewrite Hg1, Hc1, Hn1.
  by destruct (call n fn st1) as [[v|e|] s1].
Qed.

Lemma X14_rebinding_to_an_uncached_singleton_computes_witness :
  let st := set_global (Some 0%nat)
              (snd (withContainer (call 3) 3%nat (Some 0%nat) demo)) in
  fst (call 3 3%nat st) = Return (VNum 0) /\
  fst (call 3 3%nat (snd (_bind 3%nat 4%nat st))) = Return (VNum 1).
Proof.
  intros st. split; [reflexivity|].
  rewrite (X14_rebinding_to_an_uncached_singleton_computes st 0%nat 3%nat
             2%nat 4%nat 0%nat 1);
    [vm_compute; reflexivity | reflexivity | vm_compute; eexists; reflexivity
    | reflexivity | reflexivity | reflexivity].
Defined.
